(** * global-food-news: the acquisition and drill-down logic of [app.py]

    A shallow embedding of the dashboard's data path: the paginated fetch
    ([fetch_food_data]), the text clean-up ([remove_html_tags]), the
    country table ([COUNTRY_MAPPING]), the filters of the two tabs, the
    grid of the first tab and the groups behind the map of the second.

    Conventions of the embedding.
    - A Python [str] is a [string] holding its UTF-8 bytes.  Every
      character the code looks for is ASCII, and byte-wise lexicographic
      order on UTF-8 coincides with Python's code-point order.
    - A cell of a frame is [option string]: [None] stands for both
      [None] and [NaN], which is all [pd.isna] distinguishes.
    - A [DataFrame] is a list of column labels and a list of rows, each
      row positional in the labels; labels can repeat after [rename].
    - Exceptions are values of [exn] in a sum type; the [try]/[except]
      of [fetch_food_data] is a [match] on that sum.
    - The remote API is a function from the request parameters to a
      [response]; the calls made and the messages shown with [st.error]
      are returned next to the frame.  The fields of an item are
      strings or null, as the API sends them.
    - The progress widgets, the pause between two calls and the cache
      around [fetch_food_data] are left out: they change neither the
      calls nor the frame of one invocation. *)

From Stdlib Require Import Ascii String NArith.
From stdpp Require Import gmap strings list fin_maps sorting.

Open Scope string_scope.

(** ** Python string built-ins used by the code *)

Module PyStr.

(** [pat in s]: [pat] occurs in [s] as a contiguous substring. *)
Fixpoint occurs (pat s : string) : bool :=
  String.prefix pat s ||
  match s with
  | "" => false
  | String _ s' => occurs pat s'
  end.

(** The scan of [str.replace] for a non-empty [old]: left to right, each
    occurrence found at the current position is replaced and the scan
    resumes after it.  [skip] counts the characters of the occurrence
    still to be passed over. *)
Fixpoint replace_go (old new : string) (skip : nat) (s : string) : string :=
  match s with
  | "" => ""
  | String c s' =>
      match skip with
      | S k => replace_go old new k s'
      | O =>
          if String.prefix old s
          then new ++ replace_go old new (String.length old - 1) s'
          else String c (replace_go old new 0 s')
      end
  end.

Fixpoint interleave (new s : string) : string :=
  match s with
  | "" => ""
  | String c s' => String c (new ++ interleave new s')
  end.

(** [s.replace(old, new)].  An empty [old] matches between all
    characters. *)
Definition replace (old new s : string) : string :=
  match old with
  | "" => new ++ interleave new s
  | _ => replace_go old new 0 s
  end.

(** Whitespace as [str.strip] sees it, on the UTF-8 encoding: the code
    points 09-0D, 1C-20, 85, A0, 1680, 2000-200A, 2028, 2029, 202F,
    205F and 3000. *)
Definition ws1 (a : ascii) : bool :=
  let n := N_of_ascii a in
  ((9 <=? n) && (n <=? 13) || (28 <=? n) && (n <=? 32))%N.

Definition ws2 (a b : ascii) : bool :=
  let n := N_of_ascii b in
  ((N_of_ascii a =? 194) && ((n =? 133) || (n =? 160)))%N.

Definition ws3 (a b c : ascii) : bool :=
  let x := N_of_ascii a in
  let y := N_of_ascii b in
  let n := N_of_ascii c in
  ((x =? 225) && (y =? 154) && (n =? 128)
   || (x =? 226) && (y =? 128)
      && ((128 <=? n) && (n <=? 138) || (n =? 168) || (n =? 169) || (n =? 175))
   || (x =? 226) && (y =? 129) && (n =? 159)
   || (x =? 227) && (y =? 128) && (n =? 128))%N.

Fixpoint lstrip (s : string) : string :=
  match s with
  | "" => ""
  | String a t1 =>
      if ws1 a then lstrip t1 else
      match t1 with
      | "" => s
      | String b t2 =>
          if ws2 a b then lstrip t2 else
          match t2 with
          | "" => s
          | String c t3 => if ws3 a b c then lstrip t3 else s
          end
      end
  end.

(** [s] consists of whitespace only. *)
Fixpoint all_ws (s : string) : bool :=
  match s with
  | "" => true
  | String a t1 =>
      if ws1 a then all_ws t1 else
      match t1 with
      | "" => false
      | String b t2 =>
          if ws2 a b then all_ws t2 else
          match t2 with
          | "" => false
          | String c t3 => ws3 a b c && all_ws t3
          end
      end
  end.

Fixpoint rstrip (s : string) : string :=
  match s with
  | "" => ""
  | String a t => if all_ws s then "" else String a (rstrip t)
  end.

Definition strip (s : string) : string := rstrip (lstrip s).

End PyStr.

(** ** [re.sub('<.*?>', '', s)] *)

Definition LT : ascii := "<".
Definition GT : ascii := ">".
Definition NL : ascii := "010".
Definition AMP : ascii := "&".

(** After a ["<"], the lazy [.*?>] succeeds exactly when a [">"] comes
    before any line break ([.] does not match a newline). *)
Fixpoint has_close (s : string) : bool :=
  match s with
  | "" => false
  | String c s' =>
      if Ascii.eqb c GT then true
      else if Ascii.eqb c NL then false
      else has_close s'
  end.

(** The text has a match of [<.*?>] somewhere. *)
Fixpoint contains_tag (s : string) : bool :=
  match s with
  | "" => false
  | String c s' => (Ascii.eqb c LT && has_close s') || contains_tag s'
  end.

(** Leftmost non-overlapping matches are deleted: at a ["<"] that has a
    close, [skip_tag] passes over the match, through its first [">"]. *)
Fixpoint sub_tags (s : string) : string :=
  match s with
  | "" => ""
  | String c s' =>
      if Ascii.eqb c LT && has_close s' then skip_tag s'
      else String c (sub_tags s')
  end
with skip_tag (s : string) : string :=
  match s with
  | "" => ""
  | String c s' => if Ascii.eqb c GT then sub_tags s' else skip_tag s'
  end.

(** ** Cells and [remove_html_tags] *)

(** A cell of a frame; [None] is a missing value ([None]/[NaN]). *)
Abbreviation cell := (option string).

Definition remove_html_tags (text : cell) : string :=
  match text with
  | None => ""
  | Some raw =>
      let text := sub_tags raw in
      PyStr.strip
        (PyStr.replace "&gt;" ">"
           (PyStr.replace "&lt;" "<"
              (PyStr.replace "&nbsp;" " " text)))
  end.

(** ** Exceptions *)

(** What the code can raise.  [NotUnique] stands for the [ValueError],
    [TypeError] or [AttributeError] pandas raises when a label that has
    to name one column names several; the handler of [fetch_food_data]
    catches [Exception] and does not tell them apart. *)
Inductive exn : Type :=
| RequestError (msg : string)
| KeyError (label : string)
| NotUnique (label : string).

Definition result (A : Type) : Type := (exn + A)%type.

Definition ret {A : Type} (a : A) : result A := inr a.
Definition raise {A : Type} (e : exn) : result A := inl e.

Definition bind {A B : Type} (m : result A) (k : A → result B) : result B :=
  match m with
  | inl e => inl e
  | inr a => k a
  end.

Notation "x <- m ;; k" := (bind m (λ x, k))
  (at level 100, m at next level, right associativity,
   format "'[v' x  <-  m  ;;  '/' k ']'").

(** ** The part of pandas the code uses *)

Module Pandas.

Local Open Scope list_scope.

Abbreviation row := (list cell).

Record DataFrame : Type := mkFrame {
  columns : list string;
  rows : list row
}.

(** [pd.DataFrame()] *)
Definition empty_frame : DataFrame := mkFrame [] [].

(** [df.empty] *)
Definition empty (df : DataFrame) : bool :=
  match columns df, rows df with
  | [], _ | _, [] => true
  | _, _ => false
  end.

(** [len(df)] *)
Definition len (df : DataFrame) : nat := length (rows df).

(** A decoded JSON object with string-or-null values: its keys, in
    the order of the document, are distinct. *)
Abbreviation item := (list (string * cell)).

Fixpoint item_get (it : item) (k : string) : cell :=
  match it with
  | [] => None
  | (k', v) :: it' => if String.eqb k' k then v else item_get it' k
  end.

(** Labels in order of first appearance. *)
Fixpoint uniq {A : Type} `{EqDecision A} (l : list A) : list A :=
  match l with
  | [] => []
  | x :: l' => x :: filter (λ y, y ≠ x) (uniq l')
  end.

(** [pd.DataFrame(all_data)] for a list of dicts: one column per key,
    in order of first appearance; a key an item lacks gives a missing
    value. *)
Definition from_records (all_data : list item) : DataFrame :=
  let cols := uniq (concat (map (λ it : item, it.*1) all_data)) in
  mkFrame cols (map (λ it, map (item_get it) cols) all_data).

(** [df.rename(columns=m)] *)
Definition rename (m : gmap string string) (df : DataFrame) : DataFrame :=
  mkFrame (map (λ c, default c (m !! c)) (columns df)) (rows df).

(** The positions at which [label] heads a column. *)
Fixpoint positions_from (n : nat) (label : string) (cols : list string)
  : list nat :=
  match cols with
  | [] => []
  | c :: cols' =>
      if String.eqb c label then n :: positions_from (S n) label cols'
      else positions_from (S n) label cols'
  end.

Definition positions (label : string) (cols : list string) : list nat :=
  positions_from 0 label cols.

(** [label in df.columns] *)
Definition has_column (df : DataFrame) (label : string) : bool :=
  match positions label (columns df) with
  | [] => false
  | _ => true
  end.

(** The position of the one column called [label]. *)
Definition loc (df : DataFrame) (label : string) : result nat :=
  match positions label (columns df) with
  | [] => raise (KeyError label)
  | [i] => ret i
  | _ => raise (NotUnique label)
  end.

Definition value_at (i : nat) (r : row) : cell := default None (r !! i).

(** [df[label]] used as a Series.  With a repeated label pandas hands
    back a frame, and every Series operation the code applies to it
    raises. *)
Definition get_column (df : DataFrame) (label : string)
  : result (list cell) :=
  i <- loc df label ;;
  ret (map (value_at i) (rows df)).

(** [df[label] = series]: overwrite the column(s) of that name, or
    append a new last column. *)
Definition set_cell (ps : list nat) (label_absent : bool) (v : cell) (r : row)
  : row :=
  if label_absent then r ++ [v]
  else foldr (λ i r', <[i:=v]> r') r ps.

Definition set_column (df : DataFrame) (label : string) (series : list cell)
  : DataFrame :=
  let ps := positions label (columns df) in
  let absent := negb (has_column df label) in
  mkFrame (if absent then columns df ++ [label] else columns df)
          (zip_with (set_cell ps absent) series (rows df)).

(** Order of the sort keys: a missing value is below every string,
    strings compare as Python compares [str]. *)
Definition cell_leb (a b : cell) : bool :=
  match a, b with
  | None, _ => true
  | Some _, None => false
  | Some x, Some y => String.leb x y
  end.

Definition cell_ltb (a b : cell) : bool := negb (cell_leb b a).

(** [sort_values(ascending=False)] on one key: larger keys first,
    missing values last.  Equal keys stay in their previous order here;
    pandas leaves their order to the sorting routine, and no statement
    below depends on it. *)
Fixpoint insert_desc (key : row → cell) (r : row) (sorted : list row)
  : list row :=
  match sorted with
  | [] => [r]
  | r' :: rest =>
      if cell_ltb (key r) (key r') then r' :: insert_desc key r rest
      else r :: sorted
  end.

Definition sort_desc (key : row → cell) (rs : list row) : list row :=
  foldr (insert_desc key) [] rs.

Definition sort_values_desc (df : DataFrame) (by_ : string)
  : result DataFrame :=
  i <- loc df by_ ;;
  ret (mkFrame (columns df) (sort_desc (value_at i) (rows df))).

(** [series.map(d)] and [series.fillna(other)], cell by cell. *)
Definition map_dict (d : gmap string string) (c : cell) : cell :=
  match c with
  | None => None
  | Some k => d !! k
  end.

Definition fillna (c other : cell) : cell :=
  match c with
  | None => other
  | Some _ => c
  end.

(** [series.isin(values)]: missing values match a missing value. *)
Definition isin (values : list cell) (c : cell) : bool :=
  bool_decide (c ∈ values).

(** [series == v]: a comparison with a missing value is false. *)
Definition eq_cell (c v : cell) : bool :=
  match c, v with
  | Some a, Some b => String.eqb a b
  | _, _ => false
  end.

(** [df[mask]] for a mask computed row by row. *)
Definition select (p : row → bool) (df : DataFrame) : DataFrame :=
  mkFrame (columns df) (List.filter p (rows df)).

(** [df.head(n)] *)
Definition head (n : nat) (df : DataFrame) : DataFrame :=
  mkFrame (columns df) (take n (rows df)).

End Pandas.

Import Pandas.

Local Open Scope list_scope.
Local Open Scope nat_scope.

(** ** [app.py]: configuration *)

Definition COUNTRY_MAPPING : gmap string string :=
  list_to_map
    [("중국", "China"); ("일본", "Japan"); ("미국", "United States");
     ("프랑스", "France"); ("베트남", "Vietnam"); ("독일", "Germany");
     ("이탈리아", "Italy"); ("영국", "United Kingdom"); ("캐나다", "Canada");
     ("호주", "Australia"); ("태국", "Thailand"); ("인도", "India");
     ("대한민국", "South Korea"); ("한국", "South Korea"); ("대만", "Taiwan");
     ("스페인", "Spain"); ("러시아", "Russia"); ("브라질", "Brazil");
     ("인도네시아", "Indonesia"); ("필리핀", "Philippines");
     ("네덜란드", "Netherlands"); ("벨기에", "Belgium");
     ("튀르키예", "Turkey"); ("터키", "Turkey")].

(** The [columns=] argument of the [rename] in [fetch_food_data]. *)
Definition RENAME_COLUMNS : gmap string string :=
  list_to_map
    [("TITLE", "제품명"); ("COUNTRY", "국가"); ("INFO_TYPE", "구분");
     ("CONTENT", "상세내용"); ("REGISTRATION_DATE", "등록일");
     ("ORIGINAL_URL", "원문링크")].

(** ** [app.py]: the remote API *)

Record date : Type := mkDate { year : nat; month : nat; day : nat }.

Definition digit (n : nat) : ascii := ascii_of_nat (48 + n mod 10).

(** [d.strftime("%Y%m%d")] for a four-digit year. *)
Definition strftime_Ymd (d : date) : string :=
  String (digit (year d / 1000)) (String (digit (year d / 100))
  (String (digit (year d / 10)) (String (digit (year d))
  (String (digit (month d / 10)) (String (digit (month d))
  (String (digit (day d / 10)) (String (digit (day d)) ""))))))).

(** The query string of one call. *)
Record params : Type := mkParams {
  apiKey : string;
  bgnde : string;
  endde : string;
  startIndex : nat;
  endIndex : nat
}.

(** What one call comes to: [requests.get], [raise_for_status] or
    [response.json] raises, or the body decodes.  [Json None] is a body
    that is not an object or has no [ITEMS]; [Json (Some l)] carries the
    list under [ITEMS]. *)
Inductive response : Type :=
| Raises (msg : string)
| Json (ITEMS : option (list item)).

Definition batch_size : nat := 100.

(** The state the loop of [fetch_food_data] mutates: [all_data], and
    the calls sent so far (oldest first). *)
Record fetch_state : Type := mkState {
  all_data : list item;
  sent : list params
}.

(** The body of [for i in range(5)], over the remaining values of [i].
    The result is the exception that left the loop, if any, and the
    state at that point; [break] and exhaustion both leave normally. *)
Fixpoint paginate (remote : params → response) (API_KEY bgnde endde : string)
    (range : list nat) (st : fetch_state) : option exn * fetch_state :=
  match range with
  | [] => (None, st)
  | i :: range' =>
      let start_index := i * batch_size + 1 in
      let end_index := (i + 1) * batch_size in
      let p := mkParams API_KEY bgnde endde start_index end_index in
      let st := mkState (all_data st) (sent st ++ [p]) in
      match remote p with
      | Raises msg => (Some (RequestError msg), st)
      | Json None => (None, st)
      | Json (Some []) => (None, st)
      | Json (Some ITEMS) =>
          paginate remote API_KEY bgnde endde range'
            (mkState (all_data st ++ ITEMS) (sent st))
      end
  end.

(** ** [app.py]: normalisation *)

(** Lines 90-108: the frame is built, renamed, sorted, its detail text
    cleaned and the English country name added. *)
Definition normalize (all_data : list item) : result DataFrame :=
  let df := from_records all_data in
  let df := rename RENAME_COLUMNS df in
  df <- sort_values_desc df "등록일" ;;
  df <- (if has_column df "상세내용"
         then s <- get_column df "상세내용" ;;
              ret (set_column df "상세내용"
                     (map (λ c, Some (remove_html_tags c)) s))
         else ret df) ;;
  s <- get_column df "국가" ;;
  ret (set_column df "Country_EN"
         (zip_with fillna (map (map_dict COUNTRY_MAPPING) s) s)).

(** What a run of [fetch_food_data] leaves behind: the frame returned,
    the exceptions reported with [st.error], and the calls made. *)
Record outcome : Type := mkOutcome {
  frame : DataFrame;
  errors : list exn;
  requests : list params
}.

(** The [except Exception as e] branch. *)
Definition on_exception (e : exn) (st : fetch_state) : outcome :=
  mkOutcome
    (match all_data st with
     | [] => empty_frame
     | _ => from_records (all_data st)
     end)
    [e] (sent st).

Definition fetch_food_data (remote : params → response) (API_KEY : string)
    (start_date end_date : date) : outcome :=
  let bgnde := strftime_Ymd start_date in
  let endde := strftime_Ymd end_date in
  let '(raised, st) :=
    paginate remote API_KEY bgnde endde (seq 0 5) (mkState [] []) in
  match raised with
  | Some e => on_exception e st
  | None =>
      match all_data st with
      | [] => mkOutcome empty_frame [] (sent st)
      | _ =>
          match normalize (all_data st) with
          | inl e => on_exception e st
          | inr df => mkOutcome df [] (sent st)
          end
      end
  end.

(** ** [app.py]: the two tabs *)

(** [list(df[label].unique())] *)
Definition unique_values (df : DataFrame) (label : string)
  : result (list cell) :=
  s <- get_column df label ;;
  ret (uniq s).

(** Lines 160-163.  The two selections are what the multiselects
    return; the options they offer come from [unique_values], which has
    already raised for a frame lacking either column. *)
Definition filtered_df (df : DataFrame) (filter_type filter_country : list cell)
  : result DataFrame :=
  i <- loc df "구분" ;;
  j <- loc df "국가" ;;
  ret (select (λ r, isin filter_type (value_at i r)
                    && isin filter_country (value_at j r)) df).

(** Line 209. *)
Definition country_data (fdf : DataFrame) (selected_country : cell)
  : result DataFrame :=
  j <- loc fdf "국가" ;;
  ret (select (λ r, eq_cell (value_at j r) selected_country) fdf).

(** The rows the loop of line 217 goes through. *)
Definition drill_down (fdf : DataFrame) (selected_country : cell)
  : result DataFrame :=
  cd <- country_data fdf selected_country ;;
  ret (head 5 cd).

(** [df[labels]] for a list of labels: the columns of those names, in
    the order asked for; a label that names no column raises.  pandas
    names every missing label in its [KeyError]; the first one is kept
    here. *)
Fixpoint label_positions (labels cols : list string)
  : result (list (string * nat)) :=
  match labels with
  | [] => ret []
  | l :: labels' =>
      match positions l cols with
      | [] => raise (KeyError l)
      | ps =>
          rest <- label_positions labels' cols ;;
          ret (map (pair l) ps ++ rest)
      end
  end.

Definition getitem_columns (df : DataFrame) (labels : list string)
  : result DataFrame :=
  ps <- label_positions labels (columns df) ;;
  ret (mkFrame ps.*1 (map (λ r : row, map (λ p, value_at p.2 r) ps) (rows df))).

(** Lines 165-166: the grid of the first tab. *)
Definition LIST_COLUMNS : list string :=
  ["등록일"; "구분"; "국가"; "제품명"; "상세내용"].

Definition list_view (fdf : DataFrame) : result DataFrame :=
  getitem_columns fdf LIST_COLUMNS.

(** The positions of the grouping columns; the first label that names
    no column, or several, raises. *)
Fixpoint locs (df : DataFrame) (labels : list string) : result (list nat) :=
  match labels with
  | [] => ret []
  | l :: labels' =>
      i <- loc df l ;;
      rest <- locs df labels' ;;
      ret (i :: rest)
  end.

(** The key of a row under [groupby]: its cells in the grouping
    columns, or nothing when one of them is missing (such rows are
    dropped, [dropna=True]). *)
Fixpoint group_key (cells : list cell) : option (list string) :=
  match cells with
  | [] => Some []
  | None :: _ => None
  | Some s :: cells' =>
      match group_key cells' with
      | None => None
      | Some k => Some (s :: k)
      end
  end.

(** Keys compare column by column, each as Python compares [str]. *)
Fixpoint key_compare (k1 k2 : list string) : comparison :=
  match k1, k2 with
  | [], [] => Eq
  | [], _ :: _ => Lt
  | _ :: _, [] => Gt
  | a :: k1', b :: k2' =>
      match String.compare a b with
      | Eq => key_compare k1' k2'
      | c => c
      end
  end.

(** One more row of key [k] in groups kept in ascending key order. *)
Fixpoint count_into (k : list string) (groups : list (list string * nat))
  : list (list string * nat) :=
  match groups with
  | [] => [(k, 1)]
  | (k', n) :: groups' =>
      match key_compare k k' with
      | Eq => (k', S n) :: groups'
      | Lt => (k, 1) :: groups
      | Gt => (k', n) :: count_into k groups'
      end
  end.

(** [df.groupby(by).size().reset_index(name=...)]: one entry per key
    that occurs, with the number of its rows, in ascending key order. *)
Definition groupby_size (df : DataFrame) (by_ : list string)
  : result (list (list string * nat)) :=
  ps <- locs df by_ ;;
  ret (foldr (λ (r : row) groups,
                match group_key (map (λ p, value_at p r) ps) with
                | None => groups
                | Some k => count_into k groups
                end)
             [] (rows df)).

(** Line 175. *)
Definition map_data (fdf : DataFrame) : result (list (list string * nat)) :=
  groupby_size fdf ["Country_EN"; "국가"; "구분"].

(** Line 206: the countries the select box of the second tab offers. *)
Definition available_countries (fdf : DataFrame) : result (list cell) :=
  unique_values fdf "국가".

(** * Vocabulary of the statements *)

(** The character [c] occurs in [s]. *)
Fixpoint mem_char (c : ascii) (s : string) : bool :=
  match s with
  | "" => false
  | String a s' => Ascii.eqb a c || mem_char c s'
  end.

(** The characters the tag pattern looks at, and a text reduced to
    them. *)
Definition is_tag_char (c : ascii) : bool :=
  Ascii.eqb c LT || Ascii.eqb c GT || Ascii.eqb c NL.

Fixpoint tag_chars (s : string) : string :=
  match s with
  | "" => ""
  | String c s' => if is_tag_char c then String c (tag_chars s') else tag_chars s'
  end.

(** None of the first [k] characters of [s] is one of them. *)
Fixpoint free_prefix (k : nat) (s : string) : bool :=
  match k, s with
  | S k', String c s' => negb (is_tag_char c) && free_prefix k' s'
  | _, _ => true
  end.

(** The entities [remove_html_tags] unescapes. *)
Definition ENTITIES : list string := ["&nbsp;"; "&lt;"; "&gt;"].

(** [r] comes no later than [r'] in a descending order on [key]. *)
Definition desc (key : row → cell) (r r' : row) : Prop :=
  cell_leb (key r') (key r) = true.

(** A frame is sorted in descending order of the column [label]; a
    frame without rows is sorted whatever its columns are. *)
Definition sorted_desc_by (label : string) (df : DataFrame) : Prop :=
  rows df = [] ∨
  ∃ i, loc df label = inr i ∧ StronglySorted (desc (value_at i)) (rows df).

(** Every row has one cell per column. *)
Definition well_shaped (df : DataFrame) : Prop :=
  Forall (λ r : row, length r = length (columns df)) (rows df).

(** Line 106 on one cell: the mapped name, or the cell itself. *)
Definition country_en (c : cell) : cell :=
  fillna (map_dict COUNTRY_MAPPING c) c.

(** The row-by-row effect of lines 103-106: [pc] and [pe] are the
    positions of the detail and the English-name columns, [ik] the
    position of the country. *)
Definition set_all (f : nat → cell) (ps : list nat) (r : row) : row :=
  foldr (λ i r', <[i := f i]> r') r ps.

Definition clean_row (pc : list nat) (r : row) : row :=
  set_all (λ i, Some (remove_html_tags (value_at i r))) pc r.

Definition is_nil {A : Type} (l : list A) : bool :=
  match l with
  | [] => true
  | _ => false
  end.

Definition country_row (ik : nat) (pe : list nat) (r : row) : row :=
  set_cell pe (is_nil pe) (country_en (value_at ik r)) r.

(** The request for page [i] (from 0). *)
Definition window (API_KEY bgnde endde : string) (i : nat) : params :=
  mkParams API_KEY bgnde endde (100 * i + 1) (100 * (i + 1)).

(** A response that lets the loop go on, and one that ends it without
    an exception. *)
Definition has_items (r : response) (l : list item) : Prop :=
  r = Json (Some l) ∧ l ≠ [].

Definition no_items (r : response) : Prop :=
  r = Json None ∨ r = Json (Some []).

(** The loop of one invocation, and the items it had gathered when it
    was left. *)
Definition pagination (remote : params → response) (API_KEY : string)
    (start_date end_date : date) : option exn * fetch_state :=
  paginate remote API_KEY (strftime_Ymd start_date) (strftime_Ymd end_date)
    (seq 0 5) (mkState [] []).

Definition collected (remote : params → response) (API_KEY : string)
    (start_date end_date : date) : list item :=
  all_data (pagination remote API_KEY start_date end_date).2.

(** The renamed frame has one date column, one country column and at
    most one detail column, which is what lines 101-106 need. *)
Definition normalizable (data : list item) : Prop :=
  let cols := columns (rename RENAME_COLUMNS (from_records data)) in
  length (positions "등록일" cols) = 1 ∧
  length (positions "국가" cols) = 1 ∧
  length (positions "상세내용" cols) ≤ 1.

(** The fields of a notice as the API documents them. *)
Definition API_FIELDS : list string :=
  ["TITLE"; "COUNTRY"; "INFO_TYPE"; "CONTENT"; "REGISTRATION_DATE";
   "ORIGINAL_URL"].

Definition api_record (it : item) : Prop := it.*1 = API_FIELDS.

(** The columns of a normalised frame of such notices. *)
Definition NORMALIZED_COLUMNS : list string :=
  ["제품명"; "국가"; "구분"; "상세내용"; "등록일"; "원문링크"; "Country_EN"].

(** * Sample data *)

Definition notice (title country info_type content registered url : cell)
  : item :=
  [("TITLE", title); ("COUNTRY", country); ("INFO_TYPE", info_type);
   ("CONTENT", content); ("REGISTRATION_DATE", registered);
   ("ORIGINAL_URL", url)].

Definition sample_start : date := mkDate 2024 10 2.
Definition sample_end : date := mkDate 2024 12 31.

Definition older_notice : item :=
  notice (Some "dried mango") (Some "태국") (Some "회수")
         (Some "<p>sulfite&nbsp;excess</p>") (Some "20241105") None.

Definition newer_notice : item :=
  notice (Some "soy sauce") (Some "일본") (Some "회수")
         (Some "3-MCPD") (Some "20241218") (Some "https://example.org/1").

(** One page in ascending date order, then a failing second call. *)
Definition failing_second_call (p : params) : response :=
  match startIndex p with
  | 1 => Json (Some [older_notice; newer_notice])
  | _ => Raises "503 Server Error"
  end.

(** A full first page, then a failing second call. *)
Definition full_then_failing (p : params) : response :=
  match startIndex p with
  | 1 => Json (Some (replicate 100 older_notice))
  | _ => Raises "503 Server Error"
  end.

(** Three full pages, then an empty one. *)
Definition three_full_pages (p : params) : response :=
  if startIndex p <? 301 then Json (Some (replicate 100 newer_notice))
  else Json (Some []).

(** A notice whose detail text is escaped markup. *)
Definition escaped_markup (p : params) : response :=
  match startIndex p with
  | 1 => Json (Some [notice (Some "rice cake") (Some "대한민국") (Some "회수")
                       (Some "&lt;b&gt;") (Some "20241201") None])
  | _ => Json None
  end.

(** A notice without detail text from an unmapped country, and the two
    above. *)
Definition sample_items : list item :=
  [notice (Some "herbal tea") (Some "Atlantis") (Some "정보")
          None (Some "20241120") None;
   older_notice; newer_notice].

Definition mixed_notices (p : params) : response :=
  match startIndex p with
  | 1 => Json (Some sample_items)
  | _ => Json None
  end.

(** Seven notices from Japan among notices from elsewhere, in no
    particular order of date. *)
Definition dated_notice (country registered : string) : item :=
  notice (Some "seasoned laver") (Some country) (Some "회수")
         (Some "label") (Some registered) None.

Definition drill_down_items : list item :=
  [dated_notice "일본" "20241103"; dated_notice "중국" "20241120";
   dated_notice "일본" "20241111"; dated_notice "일본" "20241101";
   dated_notice "일본" "20241125"; dated_notice "미국" "20241102";
   dated_notice "일본" "20241107"; dated_notice "일본" "20241119";
   dated_notice "일본" "20241115"].

Definition drill_down_api (p : params) : response :=
  match startIndex p with
  | 1 => Json (Some drill_down_items)
  | _ => Json None
  end.

(** What [lstrip] leaves does not begin with whitespace. *)
Definition no_leading_ws (s : string) : Prop :=
  match s with
  | "" => True
  | String a t1 =>
      PyStr.ws1 a = false ∧
      match t1 with
      | "" => True
      | String b t2 =>
          PyStr.ws2 a b = false ∧
          match t2 with
          | "" => True
          | String c _ => PyStr.ws3 a b c = false
          end
      end
  end.


(** Notices of one call, one of them without a country. *)
Definition origin_unknown : list item :=
  [notice (Some "rice cracker") None (Some "회수") (Some "allergen")
          (Some "20241201") None;
   older_notice; newer_notice].

Definition origin_unknown_api (p : params) : response :=
  match startIndex p with
  | 1 => Json (Some origin_unknown)
  | _ => Json None
  end.

(** The groups of [groupby_size] are in strictly ascending key order. *)
Definition ascending_keys (groups : list (list string * nat)) : Prop :=
  StronglySorted (λ a b, key_compare a.1 b.1 = Lt) groups.

(** The count entered for a key, 0 when the key has no entry. *)
Fixpoint group_count (k : list string) (groups : list (list string * nat))
  : nat :=
  match groups with
  | [] => 0
  | (k', n) :: groups' =>
      if decide (k' = k) then n else group_count k groups'
  end.

(** The key of a row in the map of the second tab. *)
Definition map_key (e c t : nat) (r : row) : option (list string) :=
  group_key [value_at e r; value_at c r; value_at t r].

(** * Properties *)

(** ** Substrings, [replace] and [strip] *)

Lemma prefix_nil (s : string) : String.prefix "" s = true.
Proof. by destruct s. Qed.

Lemma prefix_cons (a b : ascii) (p s : string) :
  String.prefix (String a p) (String b s) = true ↔
  a = b ∧ String.prefix p s = true.
Proof.
  simpl. destruct (ascii_dec a b) as [->|Hne]; [tauto|].
  split; [discriminate|tauto].
Qed.

Lemma occurs_nil (s : string) : PyStr.occurs "" s = true.
Proof. destruct s; reflexivity. Qed.

Lemma occurs_cons (pat : string) (c : ascii) (s : string) :
  PyStr.occurs pat (String c s) =
  String.prefix pat (String c s) || PyStr.occurs pat s.
Proof. reflexivity. Qed.

Lemma occurs_in_empty (pat s : string) :
  PyStr.occurs pat "" = true → PyStr.occurs pat s = true.
Proof.
  destruct pat; [intros _; apply occurs_nil|discriminate].
Qed.

Lemma occurs_tail (pat : string) (c : ascii) (s : string) :
  PyStr.occurs pat s = true → PyStr.occurs pat (String c s) = true.
Proof. intros H. rewrite occurs_cons, H. apply orb_true_r. Qed.

Lemma append_cons (c : ascii) (s t : string) :
  (String c s ++ t)%string = String c (s ++ t)%string.
Proof. reflexivity. Qed.

Lemma mem_char_app (c : ascii) (s t : string) :
  mem_char c (s ++ t)%string = mem_char c s || mem_char c t.
Proof.
  induction s as [|a s IH]; [done|]. simpl. by rewrite IH, orb_assoc.
Qed.

Section Replace.

Variables (old : string) (nc : ascii).

Let go := PyStr.replace_go old (String nc "").

Lemma replace_go_cons (c : ascii) (s : string) :
  go 0 (String c s) =
  if String.prefix old (String c s)
  then String nc (go (String.length old - 1) s)
  else String c (go 0 s).
Proof. reflexivity. Qed.

(** A prefix of the output free of the inserted character was copied
    from the input. *)
Lemma prefix_replace_go (p t : string) :
  mem_char nc p = false →
  String.prefix p (go 0 t) = true → String.prefix p t = true.
Proof.
  revert t. induction p as [|a p IH]; intros t Hp Hpre.
  { apply prefix_nil. }
  simpl in Hp. apply orb_false_iff in Hp as [Ha Hp].
  destruct t as [|c t]; [discriminate|].
  rewrite replace_go_cons in Hpre.
  destruct (String.prefix old (String c t)).
  - apply prefix_cons in Hpre as [-> _].
    by rewrite Ascii.eqb_refl in Ha.
  - apply prefix_cons in Hpre as [-> Hpre].
    apply prefix_cons. split; [done|]. by apply IH.
Qed.

(** An occurrence in the output of a pattern free of the inserted
    character is an occurrence in the input. *)
Lemma occurs_replace_go (pat : string) (k : nat) (t : string) :
  mem_char nc pat = false →
  PyStr.occurs pat (go k t) = true → PyStr.occurs pat t = true.
Proof.
  intros Hp. revert k. induction t as [|c t IH]; intros k H.
  { exact H. }
  destruct k as [|k].
  - rewrite replace_go_cons in H.
    destruct (String.prefix old (String c t)) eqn:Hold.
    + rewrite occurs_cons in H. apply orb_true_iff in H as [H|H].
      * destruct pat as [|a pat]; [apply occurs_nil|].
        apply prefix_cons in H as [-> _]. simpl in Hp.
        by rewrite Ascii.eqb_refl in Hp.
      * apply occurs_tail. by eapply IH.
    + rewrite occurs_cons in H. apply orb_true_iff in H as [H|H].
      * rewrite occurs_cons. apply orb_true_iff. left.
        apply prefix_replace_go; [done|].
        by rewrite replace_go_cons, Hold.
      * apply occurs_tail. by eapply IH.
  - apply occurs_tail. by eapply (IH k).
Qed.

(** No occurrence of the replaced pattern is left. *)
Lemma replace_go_complete (k : nat) (t : string) :
  old ≠ "" → mem_char nc old = false →
  PyStr.occurs old (go k t) = false.
Proof.
  intros Hne Hnc. revert k. induction t as [|c t IH]; intros k.
  { destruct old; [done|reflexivity]. }
  destruct k as [|k]; [|apply IH].
  rewrite replace_go_cons.
  destruct (String.prefix old (String c t)) eqn:Hold.
  - rewrite occurs_cons, IH, orb_false_r.
    destruct old as [|a o]; [done|].
    apply not_true_is_false. intros [-> _]%prefix_cons.
    simpl in Hnc. by rewrite Ascii.eqb_refl in Hnc.
  - rewrite occurs_cons, IH, orb_false_r.
    apply not_true_is_false. intros H.
    assert (String.prefix old (String c t) = true); [|congruence].
    apply prefix_replace_go; [done|].
    by rewrite replace_go_cons, Hold.
Qed.

(** Without an occurrence nothing changes. *)
Lemma replace_go_id (t : string) :
  old ≠ "" → PyStr.occurs old t = false → go 0 t = t.
Proof.
  intros Hne. induction t as [|c t IH]; intros H; [reflexivity|].
  rewrite occurs_cons in H. apply orb_false_iff in H as [H1 H2].
  rewrite replace_go_cons, H1. f_equal. by apply IH.
Qed.

End Replace.

Lemma replace_char (old : string) (nc : ascii) (s : string) :
  old ≠ "" →
  PyStr.replace old (String nc "") s = PyStr.replace_go old (String nc "") 0 s.
Proof. by destruct old. Qed.

Lemma occurs_replace (old pat : string) (nc : ascii) (s : string) :
  old ≠ "" → mem_char nc pat = false →
  PyStr.occurs pat (PyStr.replace old (String nc "") s) = true →
  PyStr.occurs pat s = true.
Proof.
  intros Hne Hp. rewrite replace_char by done. by apply occurs_replace_go.
Qed.

Lemma replace_complete (old : string) (nc : ascii) (s : string) :
  old ≠ "" → mem_char nc old = false →
  PyStr.occurs old (PyStr.replace old (String nc "") s) = false.
Proof.
  intros Hne Hp. rewrite replace_char by done. by apply replace_go_complete.
Qed.

Lemma replace_go_miss (old : string) (nc c : ascii) (s : string) :
  String.prefix old (String c s) = false →
  PyStr.replace_go old (String nc "") 0 (String c s) =
  String c (PyStr.replace_go old (String nc "") 0 s).
Proof. intros H. by rewrite replace_go_cons, H. Qed.

Lemma replace_go_no_amp (o : string) (nc : ascii) (s rest : string) :
  mem_char AMP s = false →
  PyStr.replace_go (String AMP o) (String nc "") 0 (s ++ rest)%string =
  (s ++ PyStr.replace_go (String AMP o) (String nc "") 0 rest)%string.
Proof.
  induction s as [|c s IH]; intros H; [done|].
  simpl in H. apply orb_false_iff in H as [Hc H].
  change (String c s ++ ?r)%string with (String c (s ++ r))%string.
  rewrite replace_go_cons.
  cbn [String.prefix]. destruct (ascii_dec AMP c) as [<-|_].
  { by rewrite Ascii.eqb_refl in Hc. }
  by rewrite IH.
Qed.

Lemma occurs_lstrip (pat s : string) :
  PyStr.occurs pat (PyStr.lstrip s) = true → PyStr.occurs pat s = true.
Proof.
  remember (String.length s) as n eqn:Hn.
  revert s Hn. induction (lt_wf n) as [n _ IH]. intros s -> H.
  destruct s as [|a t1]; [done|]. simpl in H.
  destruct (PyStr.ws1 a).
  { apply occurs_tail. eapply IH; [|reflexivity|done]. simpl; lia. }
  destruct t1 as [|b t2]; [done|].
  destruct (PyStr.ws2 a b).
  { do 2 apply occurs_tail. eapply IH; [|reflexivity|done]. simpl; lia. }
  destruct t2 as [|c t3]; [done|].
  destruct (PyStr.ws3 a b c); [|done].
  do 3 apply occurs_tail. eapply IH; [|reflexivity|done]. simpl; lia.
Qed.

Lemma prefix_rstrip (p s : string) :
  String.prefix p (PyStr.rstrip s) = true → String.prefix p s = true.
Proof.
  revert p. induction s as [|a t IH]; intros p H; [done|].
  destruct p as [|b p]; [apply prefix_nil|].
  cbn [PyStr.rstrip] in H. destruct (PyStr.all_ws (String a t)); [done|].
  apply prefix_cons in H as [-> H]. apply prefix_cons. auto.
Qed.

Lemma occurs_rstrip (pat s : string) :
  PyStr.occurs pat (PyStr.rstrip s) = true → PyStr.occurs pat s = true.
Proof.
  induction s as [|a t IH]; intros H; [done|].
  cbn [PyStr.rstrip] in H. destruct (PyStr.all_ws (String a t)) eqn:Hws.
  { by apply occurs_in_empty. }
  rewrite occurs_cons in H. apply orb_true_iff in H as [H|H].
  - rewrite occurs_cons. apply orb_true_iff. left.
    apply prefix_rstrip. cbn [PyStr.rstrip]. by rewrite Hws.
  - apply occurs_tail. auto.
Qed.

Lemma occurs_strip (pat s : string) :
  PyStr.occurs pat (PyStr.strip s) = true → PyStr.occurs pat s = true.
Proof. intros H. by apply occurs_lstrip, occurs_rstrip. Qed.

Lemma lstrip_LT (s : string) : PyStr.lstrip (String LT s) = String LT s.
Proof. by destruct s as [|b [|c s]]. Qed.

Lemma all_ws_GT (s : string) : PyStr.all_ws (s ++ String GT "")%string = false.
Proof.
  remember (String.length s) as n eqn:Hn.
  revert s Hn. induction (lt_wf n) as [n _ IH]. intros s ->.
  destruct s as [|a t1]; [done|]. rewrite append_cons. cbn [PyStr.all_ws].
  destruct (PyStr.ws1 a).
  { eapply IH; [|reflexivity]. simpl; lia. }
  destruct t1 as [|b t2].
  { unfold PyStr.ws2. simpl. by rewrite andb_false_r. }
  rewrite append_cons. destruct (PyStr.ws2 a b).
  { eapply IH; [|reflexivity]. simpl; lia. }
  destruct t2 as [|c t3].
  { unfold PyStr.ws3. simpl. by rewrite !andb_false_r. }
  rewrite append_cons.
  rewrite (IH (String.length t3)); [apply andb_false_r| |done]. simpl; lia.
Qed.

Lemma rstrip_GT (s : string) :
  PyStr.rstrip (s ++ String GT "")%string = (s ++ String GT "")%string.
Proof.
  induction s as [|a s IH]; [done|].
  rewrite append_cons. cbn [PyStr.rstrip].
  rewrite <- append_cons at 1. by rewrite all_ws_GT, IH.
Qed.

(** ** Tag removal *)

(** Where no close is in reach before the substitution, none is
    afterwards: nothing is deleted ahead of the next line break. *)
Lemma has_close_sub_tags (s : string) :
  has_close s = false → has_close (sub_tags s) = false.
Proof.
  induction s as [|c s IH]; intros H; [done|].
  simpl in H. cbn [sub_tags].
  destruct (Ascii.eqb c GT) eqn:Hgt; [done|].
  destruct (Ascii.eqb c NL) eqn:Hnl.
  - destruct (Ascii.eqb c LT) eqn:Hlt.
    { apply Ascii.eqb_eq in Hlt as ->. discriminate. }
    simpl. by rewrite Hgt, Hnl.
  - rewrite H, andb_false_r. simpl. rewrite Hgt, Hnl. auto.
Qed.

Lemma sub_tags_skip_tag_clean (s : string) :
  contains_tag (sub_tags s) = false ∧ contains_tag (skip_tag s) = false.
Proof.
  induction s as [|c s [IH1 IH2]]; [done|]. split.
  - cbn [sub_tags].
    destruct (Ascii.eqb c LT && has_close s) eqn:Htag; [done|].
    cbn [contains_tag]. rewrite IH1, orb_false_r.
    apply andb_false_iff in Htag as [->|Hc]; [done|].
    by rewrite has_close_sub_tags, andb_false_r.
  - cbn [skip_tag]. by destruct (Ascii.eqb c GT).
Qed.

(** The substitution leaves no match of the pattern behind. *)
Lemma sub_tags_clean (s : string) : contains_tag (sub_tags s) = false.
Proof. apply sub_tags_skip_tag_clean. Qed.

Lemma sub_tags_id (s : string) : mem_char LT s = false → sub_tags s = s.
Proof.
  induction s as [|c s IH]; intros H; [done|].
  simpl in H. apply orb_false_iff in H as [Hc H].
  cbn [sub_tags]. rewrite Hc. simpl. f_equal. auto.
Qed.

Lemma has_close_app_GT (s : string) :
  mem_char NL s = false → has_close (s ++ String GT "")%string = true.
Proof.
  induction s as [|c s IH]; intros H; [done|].
  simpl in H. apply orb_false_iff in H as [Hc H]. simpl.
  destruct (Ascii.eqb c GT); [done|]. rewrite Hc. auto.
Qed.

(** ** Cleaned text *)

Lemma remove_html_tags_no_entity (text : cell) (e : string) :
  e ∈ ENTITIES → PyStr.occurs e (remove_html_tags text) = false.
Proof.
  intros He.
  assert (e = "&nbsp;" ∨ e = "&lt;" ∨ e = "&gt;") as Hcases.
  { unfold ENTITIES in He. rewrite !elem_of_cons, elem_of_nil in He. tauto. }
  clear He. destruct text as [raw|].
  { unfold remove_html_tags. apply not_true_is_false. intros H.
    apply occurs_strip in H.
    destruct Hcases as [->|[->| ->]].
    - apply occurs_replace in H; [|done..].
      apply occurs_replace in H; [|done..].
      by rewrite replace_complete in H.
    - apply occurs_replace in H; [|done..].
      by rewrite replace_complete in H.
    - by rewrite replace_complete in H. }
  destruct Hcases as [->|[->| ->]]; reflexivity.
Qed.

Lemma has_close_tag_chars (s : string) : has_close (tag_chars s) = has_close s.
Proof.
  induction s as [|c s IH]; [done|]. simpl. unfold is_tag_char.
  destruct (Ascii.eqb c GT) eqn:Hgt.
  { rewrite orb_true_r. simpl. by rewrite Hgt. }
  destruct (Ascii.eqb c NL) eqn:Hnl.
  { rewrite orb_true_r. simpl. by rewrite Hgt, Hnl. }
  destruct (Ascii.eqb c LT) eqn:Hlt; simpl; [by rewrite Hgt, Hnl|done].
Qed.

Lemma contains_tag_tag_chars (s : string) :
  contains_tag (tag_chars s) = contains_tag s.
Proof.
  induction s as [|c s IH]; [done|]. simpl. unfold is_tag_char.
  destruct (Ascii.eqb c LT) eqn:Hlt; simpl.
  { by rewrite Hlt, has_close_tag_chars, IH. }
  destruct (Ascii.eqb c GT || Ascii.eqb c NL); simpl; [by rewrite Hlt|done].
Qed.

Lemma prefix_free_prefix (old s : string) :
  tag_chars old = "" → String.prefix old s = true →
  free_prefix (String.length old) s = true.
Proof.
  revert s. induction old as [|o old IH]; intros s Hold Hpre; [done|].
  destruct s as [|c s]; [done|].
  apply prefix_cons in Hpre as [-> Hpre]. simpl in *.
  destruct (is_tag_char c); [done|]. simpl. auto.
Qed.

Lemma tag_chars_replace_go (old : string) (nc : ascii) (k : nat) (s : string) :
  old ≠ "" → tag_chars old = "" → is_tag_char nc = false →
  free_prefix k s = true →
  tag_chars (PyStr.replace_go old (String nc "") k s) = tag_chars s.
Proof.
  intros Hne Hold Hnc. revert k. induction s as [|c s IH]; intros k Hk.
  { by destruct k. }
  destruct k as [|k].
  - rewrite replace_go_cons.
    destruct (String.prefix old (String c s)) eqn:Hpre.
    + apply prefix_free_prefix in Hpre; [|done].
      destruct old as [|o old]; [done|]. simpl in Hpre.
      apply andb_true_iff in Hpre as [Hc Hpre].
      simpl. rewrite Hnc. apply negb_true_iff in Hc. rewrite Hc.
      rewrite Nat.sub_0_r. by apply IH.
    + simpl. by rewrite IH.
  - simpl in Hk. apply andb_true_iff in Hk as [Hc Hk].
    apply negb_true_iff in Hc. simpl. rewrite Hc. by apply IH.
Qed.

Lemma contains_tag_replace (old : string) (nc : ascii) (s : string) :
  old ≠ "" → tag_chars old = "" → is_tag_char nc = false →
  contains_tag (PyStr.replace old (String nc "") s) = contains_tag s.
Proof.
  intros Hne Hold Hnc. rewrite replace_char by done.
  rewrite <- contains_tag_tag_chars, tag_chars_replace_go by done.
  apply contains_tag_tag_chars.
Qed.

Lemma contains_tag_tail (c : ascii) (s : string) :
  contains_tag s = true → contains_tag (String c s) = true.
Proof. intros H. simpl. rewrite H. apply orb_true_r. Qed.

Lemma contains_tag_lstrip (s : string) :
  contains_tag (PyStr.lstrip s) = true → contains_tag s = true.
Proof.
  remember (String.length s) as n eqn:Hn.
  revert s Hn. induction (lt_wf n) as [n _ IH]. intros s -> H.
  destruct s as [|a t1]; [done|]. simpl in H.
  destruct (PyStr.ws1 a).
  { apply contains_tag_tail. eapply IH; [|reflexivity|done]. simpl; lia. }
  destruct t1 as [|b t2]; [done|].
  destruct (PyStr.ws2 a b).
  { do 2 apply contains_tag_tail. eapply IH; [|reflexivity|done]. simpl; lia. }
  destruct t2 as [|c t3]; [done|].
  destruct (PyStr.ws3 a b c); [|done].
  do 3 apply contains_tag_tail. eapply IH; [|reflexivity|done]. simpl; lia.
Qed.

Lemma has_close_rstrip (s : string) :
  has_close (PyStr.rstrip s) = true → has_close s = true.
Proof.
  induction s as [|a t IH]; [done|]. cbn [PyStr.rstrip].
  destruct (PyStr.all_ws (String a t)); [done|]. simpl.
  destruct (Ascii.eqb a GT); [done|]. by destruct (Ascii.eqb a NL).
Qed.

Lemma contains_tag_rstrip (s : string) :
  contains_tag (PyStr.rstrip s) = true → contains_tag s = true.
Proof.
  induction s as [|a t IH]; [done|]. cbn [PyStr.rstrip].
  destruct (PyStr.all_ws (String a t)); [done|]. simpl.
  intros [[Ha Hc]%andb_true_iff|H]%orb_true_iff.
  - by rewrite Ha, has_close_rstrip.
  - rewrite IH by done. apply orb_true_r.
Qed.

(** Text that carries no escaped angle bracket once its tags are
    removed is free of tags in the end. *)
Lemma remove_html_tags_clean (t : string) :
  PyStr.occurs "&lt;" (sub_tags t) = false →
  PyStr.occurs "&gt;" (sub_tags t) = false →
  contains_tag (remove_html_tags (Some t)) = false.
Proof.
  intros Hlt Hgt. unfold remove_html_tags.
  set (v := PyStr.replace "&nbsp;" " " (sub_tags t)).
  assert (PyStr.occurs "&lt;" v = false) as Hlt'.
  { apply not_true_is_false. intros H%occurs_replace; [congruence|done..]. }
  assert (PyStr.occurs "&gt;" v = false) as Hgt'.
  { apply not_true_is_false. intros H%occurs_replace; [congruence|done..]. }
  rewrite (replace_char "&lt;") by done.
  rewrite (replace_go_id "&lt;") by done.
  rewrite (replace_char "&gt;") by done.
  rewrite (replace_go_id "&gt;") by done.
  apply not_true_is_false. intros H.
  apply contains_tag_rstrip, contains_tag_lstrip in H.
  unfold v in H. rewrite contains_tag_replace in H by done.
  by rewrite sub_tags_clean in H.
Qed.

(** A name between an escaped ["<"] and an escaped [">"] comes out
    between the two bare characters. *)
Lemma remove_html_tags_escaped (name : string) :
  mem_char LT name = false → mem_char AMP name = false →
  remove_html_tags (Some ("&lt;" ++ name ++ "&gt;")%string) =
  ("<" ++ name ++ ">")%string.
Proof.
  intros Hlt Hamp. unfold remove_html_tags.
  change ("&lt;" ++ name ++ "&gt;")%string
    with (String "&" (String "l" (String "t" (String ";" (name ++ "&gt;")))))%string.
  rewrite sub_tags_id.
  2:{ cbn [mem_char]. rewrite mem_char_app, Hlt. reflexivity. }
  rewrite !replace_char by done.
  rewrite !(replace_go_miss "&nbsp;") by reflexivity.
  change "&nbsp;" with (String AMP "nbsp;") at 1.
  rewrite replace_go_no_amp by done.
  change (PyStr.replace_go (String AMP "nbsp;") " " 0 "&gt;") with "&gt;".
  rewrite (replace_go_cons "&lt;").
  assert (∀ x, String.prefix "&lt;"
                 (String "&" (String "l" (String "t" (String ";" x)))) = true)
    as ->.
  { intros x. repeat (apply prefix_cons; split; [done|]). apply prefix_nil. }
  change (PyStr.replace_go "&lt;" "<" (String.length "&lt;" - 1)
            (String "l" (String "t" (String ";" ?x))))
    with (PyStr.replace_go "&lt;" "<" 0 x).
  change "&lt;" with (String AMP "lt;") at 1.
  rewrite replace_go_no_amp by done.
  change (PyStr.replace_go (String AMP "lt;") "<" 0 "&gt;") with "&gt;".
  rewrite (replace_go_miss "&gt;") by reflexivity.
  change "&gt;" with (String AMP "gt;") at 1.
  rewrite replace_go_no_amp by done.
  change (PyStr.replace_go (String AMP "gt;") ">" 0 "&gt;") with ">".
  unfold PyStr.strip.
  rewrite lstrip_LT.
  exact (rstrip_GT (String LT name)).
Qed.

(** ** The order of the sort keys *)

Lemma string_leb_refl (x : string) : String.leb x x = true.
Proof. destruct (String.leb_total x x); done. Qed.

Lemma string_leb_trans (x y z : string) :
  String.leb x y = true → String.leb y z = true → String.leb x z = true.
Proof.
  unfold String.leb. revert y z.
  induction x as [|a x IH]; intros [|b y] [|c z]; simpl; try done.
  unfold Ascii.compare. intros Hxy Hyz.
  destruct (N.compare_spec (N_of_ascii a) (N_of_ascii b)) as [Hab|Hab|Hab];
    [|clear Hxy|done];
    (destruct (N.compare_spec (N_of_ascii b) (N_of_ascii c)) as [Hbc|Hbc|Hbc];
     [|clear Hyz|done]).
  - rewrite Hab, Hbc, N.compare_refl. eauto.
  - rewrite Hab. by apply N.compare_lt_iff in Hbc as ->.
  - rewrite <- Hbc. by apply N.compare_lt_iff in Hab as ->.
  - assert (N_of_ascii a < N_of_ascii c)%N as Hac by lia.
    by apply N.compare_lt_iff in Hac as ->.
Qed.

Lemma cell_leb_refl (a : cell) : cell_leb a a = true.
Proof. destruct a; [apply string_leb_refl|done]. Qed.

Lemma cell_leb_total (a b : cell) : cell_leb a b = false → cell_leb b a = true.
Proof.
  destruct a as [x|], b as [y|]; simpl; try done.
  destruct (String.leb_total x y); congruence.
Qed.

Lemma cell_leb_trans (a b c : cell) :
  cell_leb a b = true → cell_leb b c = true → cell_leb a c = true.
Proof.
  destruct a as [x|], b as [y|], c as [z|]; simpl; try done.
  apply string_leb_trans.
Qed.

(** ** Sorting *)

Section Sorting.

Variable key : row → cell.

Lemma insert_desc_perm (r : row) (l : list row) :
  insert_desc key r l ≡ₚ r :: l.
Proof.
  induction l as [|r' l IH]; simpl; [done|].
  destruct (cell_ltb (key r) (key r')); [|done].
  rewrite IH. apply Permutation_swap.
Qed.

Lemma sort_desc_perm (l : list row) : sort_desc key l ≡ₚ l.
Proof.
  induction l as [|r l IH]; simpl; [done|].
  fold (sort_desc key l). by rewrite insert_desc_perm, IH.
Qed.

Lemma insert_desc_sorted (r : row) (l : list row) :
  StronglySorted (desc key) l → StronglySorted (desc key) (insert_desc key r l).
Proof.
  induction l as [|r' l IH]; simpl; intros Hl.
  { repeat constructor. }
  apply StronglySorted_cons in Hl as [Hr' Hl].
  unfold cell_ltb. destruct (cell_leb (key r') (key r)) eqn:Hle; simpl.
  - apply StronglySorted_cons. split; [|by apply StronglySorted_cons].
    constructor; [done|].
    eapply Forall_impl; [exact Hr'|]. intros x Hx. unfold desc in *.
    by eapply cell_leb_trans.
  - apply StronglySorted_cons. split; [|auto].
    rewrite insert_desc_perm. constructor; [|done].
    by apply cell_leb_total.
Qed.

Lemma sort_desc_sorted (l : list row) : StronglySorted (desc key) (sort_desc key l).
Proof.
  induction l as [|r l IH]; simpl; [constructor|].
  by apply insert_desc_sorted.
Qed.

Lemma sorted_filter (p : row → bool) (l : list row) :
  StronglySorted (desc key) l → StronglySorted (desc key) (List.filter p l).
Proof.
  induction l as [|r l IH]; simpl; intros Hl; [done|].
  apply StronglySorted_cons in Hl as [Hr Hl].
  destruct (p r); [|auto].
  apply StronglySorted_cons. split; [|auto].
  apply Forall_forall. intros x Hx%list_elem_of_In%filter_In.
  rewrite Forall_forall in Hr. apply Hr, list_elem_of_In, Hx.
Qed.

Lemma sorted_take (n : nat) (l : list row) :
  StronglySorted (desc key) l → StronglySorted (desc key) (take n l).
Proof.
  intros Hl. rewrite <- (take_drop n l) in Hl.
  by apply StronglySorted_app_1_l in Hl.
Qed.

End Sorting.

Lemma sorted_map_key (key key' : row → cell) (g : row → row) (P : row → Prop)
    (l : list row) :
  Forall P l → (∀ r, P r → key' (g r) = key r) →
  StronglySorted (desc key) l → StronglySorted (desc key') (map g l).
Proof.
  intros HP Hkey Hl. induction Hl as [|r l Hl IH Hr]; simpl; [constructor|].
  apply Forall_cons in HP as [HPr HP].
  constructor; [auto|].
  apply Forall_forall. intros ? (r' & -> & Hin)%list_elem_of_fmap.
  rewrite Forall_forall in Hr, HP. unfold desc in *.
  rewrite !Hkey by auto. auto.
Qed.

(** ** Column positions *)

Lemma elem_of_positions_from (n : nat) (label : string) (cols : list string)
    (i : nat) :
  i ∈ positions_from n label cols ↔
  ∃ k, i = n + k ∧ cols !! k = Some label.
Proof.
  revert n. induction cols as [|c cols IH]; intros n; simpl.
  { rewrite elem_of_nil. split; [done|]. by intros (k & _ & ?). }
  destruct (String.eqb_spec c label) as [->|Hne].
  - rewrite elem_of_cons, IH. split.
    + intros [->|(k & -> & Hk)].
      * exists 0. split; [lia|done].
      * exists (S k). split; [lia|done].
    + intros ([|k] & -> & Hk).
      * left. lia.
      * right. exists k. split; [lia|done].
  - rewrite IH. split.
    + intros (k & -> & Hk). exists (S k). split; [lia|done].
    + intros ([|k] & -> & Hk).
      * simpl in Hk. congruence.
      * exists k. split; [lia|done].
Qed.

Lemma elem_of_positions (label : string) (cols : list string) (i : nat) :
  i ∈ positions label cols ↔ cols !! i = Some label.
Proof.
  unfold positions. rewrite elem_of_positions_from. split.
  - by intros (k & -> & Hk).
  - intros H. by exists i.
Qed.

Lemma positions_from_app (n : nat) (label : string) (cols cols' : list string) :
  positions_from n label (cols ++ cols') =
  positions_from n label cols ++ positions_from (n + length cols) label cols'.
Proof.
  revert n. induction cols as [|c cols IH]; intros n; simpl.
  { by rewrite Nat.add_0_r. }
  rewrite IH. replace (S n + length cols) with (n + S (length cols)) by lia.
  by destruct (String.eqb c label).
Qed.

(** Appending a column of another name moves no position. *)
Lemma positions_snoc_ne (label other : string) (cols : list string) :
  other ≠ label → positions label (cols ++ [other]) = positions label cols.
Proof.
  intros Hne. unfold positions. rewrite positions_from_app. simpl.
  destruct (String.eqb_spec other label); [done|]. by rewrite app_nil_r.
Qed.

Lemma positions_snoc_new (label : string) (cols : list string) :
  positions label cols = [] →
  positions label (cols ++ [label]) = [length cols].
Proof.
  intros Hnone. unfold positions in *. rewrite positions_from_app, Hnone.
  simpl. by rewrite String.eqb_refl.
Qed.

Lemma positions_lt (label : string) (cols : list string) (i : nat) :
  i ∈ positions label cols → i < length cols.
Proof. rewrite elem_of_positions. apply lookup_lt_Some. Qed.

Lemma positions_from_absent (n : nat) (label : string) (cols : list string) :
  label ∉ cols → positions_from n label cols = [].
Proof.
  revert n. induction cols as [|c cols IH]; intros n Hnotin; simpl; [done|].
  apply not_elem_of_cons in Hnotin as [Hne Hnotin].
  destruct (String.eqb_spec c label); [congruence|]. auto.
Qed.

Lemma positions_from_NoDup (n : nat) (label : string) (cols : list string) :
  NoDup cols → length (positions_from n label cols) ≤ 1.
Proof.
  revert n. induction cols as [|c cols IH]; intros n Hnd; simpl; [lia|].
  apply NoDup_cons in Hnd as [Hnotin Hnd].
  destruct (String.eqb_spec c label) as [->|Hne]; [|auto].
  rewrite positions_from_absent by done. simpl. lia.
Qed.

Lemma positions_from_map (f : string → string) (n : nat) (label : string)
    (cols : list string) :
  (∀ c, f c = label ↔ c = label) →
  positions_from n label (map f cols) = positions_from n label cols.
Proof.
  intros Hf. revert n. induction cols as [|c cols IH]; intros n; simpl; [done|].
  rewrite IH.
  destruct (String.eqb_spec (f c) label) as [Hfc|Hfc],
           (String.eqb_spec c label) as [Hc|Hc]; try done.
  - by apply (proj1 (Hf c)) in Hfc.
  - by apply (proj2 (Hf c)) in Hc.
Qed.

Lemma loc_lookup (df : DataFrame) (label : string) (i : nat) :
  loc df label = inr i → columns df !! i = Some label.
Proof.
  unfold loc, ret, raise. intros H. apply elem_of_positions.
  destruct (positions label (columns df)) as [|j [|? ?]]; try done.
  injection H as ->. apply list_elem_of_here.
Qed.

Lemma loc_positions (df : DataFrame) (label : string) (i : nat) :
  loc df label = inr i ↔ positions label (columns df) = [i].
Proof.
  unfold loc, ret, raise.
  destruct (positions label (columns df)) as [|j [|? ?]];
    split; intros H; try done; by simplify_eq.
Qed.

Lemma loc_columns (df df' : DataFrame) (label : string) :
  columns df' = columns df → loc df' label = loc df label.
Proof. unfold loc. by intros ->. Qed.

(** Two labels cannot share a position. *)
Lemma loc_ne (df : DataFrame) (l1 l2 : string) (i1 i2 : nat) :
  l1 ≠ l2 → columns df !! i1 = Some l1 → columns df !! i2 = Some l2 → i1 ≠ i2.
Proof. intros Hne H1 H2 ->. congruence. Qed.

Lemma NoDup_positions (label : string) (cols : list string) (i j : nat) :
  NoDup cols → i ∈ positions label cols → j ∈ positions label cols → i = j.
Proof.
  rewrite !elem_of_positions. intros Hnd Hi Hj.
  by eapply NoDup_lookup.
Qed.

(** ** Building and renaming a frame *)

Lemma elem_of_uniq (x : string) (l : list string) : x ∈ uniq l ↔ x ∈ l.
Proof.
  induction l as [|y l IH]; simpl; [done|].
  rewrite !elem_of_cons, list_elem_of_filter, IH.
  destruct (decide (x = y)); tauto.
Qed.

Lemma NoDup_uniq (l : list string) : NoDup (uniq l).
Proof.
  induction l as [|x l IH]; simpl; constructor.
  - rewrite list_elem_of_filter. tauto.
  - by apply NoDup_filter.
Qed.

Lemma filter_none (P : string → Prop) `{∀ x, Decision (P x)} (l : list string) :
  (∀ x, x ∈ l → ¬ P x) → filter P l = [].
Proof.
  induction l as [|y l IH]; intros Hl; [done|].
  rewrite filter_cons_False by (apply Hl, list_elem_of_here).
  apply IH. intros x Hx. by apply Hl, list_elem_of_further.
Qed.

Lemma filter_all (P : string → Prop) `{∀ x, Decision (P x)} (l : list string) :
  (∀ x, x ∈ l → P x) → filter P l = l.
Proof.
  induction l as [|y l IH]; intros Hl; [done|].
  rewrite filter_cons_True by (apply Hl, list_elem_of_here).
  f_equal. apply IH. intros x Hx. by apply Hl, list_elem_of_further.
Qed.

Lemma uniq_app (l m : list string) :
  uniq (l ++ m) = uniq l ++ filter (λ x, x ∉ l) (uniq m).
Proof.
  induction l as [|x l IH]; simpl.
  { symmetry. apply filter_all. intros y _. apply not_elem_of_nil. }
  rewrite IH, filter_app, list_filter_filter. do 2 f_equal.
  apply list_filter_iff. intros y. rewrite not_elem_of_cons. tauto.
Qed.

Lemma uniq_api_records (data : list item) :
  data ≠ [] → Forall api_record data →
  uniq (concat (map (λ it : item, it.*1) data)) = API_FIELDS.
Proof.
  destruct data as [|it data]; [done|]. intros _ Hall.
  pose proof Hall as [Hit _]%Forall_cons.
  rewrite map_cons, concat_cons, uniq_app. unfold api_record in Hit.
  rewrite Hit, filter_none; [by vm_compute|].
  intros x Hx Hnot. apply Hnot. apply (proj1 (elem_of_uniq _ _)) in Hx.
  apply list_elem_of_In, in_concat in Hx as (keys & Hkeys & Hx).
  apply list_elem_of_In in Hkeys, Hx.
  apply list_elem_of_fmap in Hkeys as (it' & -> & Hit').
  rewrite Forall_forall in Hall.
  by rewrite <- (Hall it' (list_elem_of_further _ _ _ Hit')).
Qed.

(** The frame built from API records, before any renaming. *)
Lemma from_records_api (data : list item) :
  data ≠ [] → Forall api_record data →
  from_records data =
  mkFrame API_FIELDS (map (λ it, map (item_get it) API_FIELDS) data).
Proof.
  intros Hne Hall. unfold from_records. by rewrite uniq_api_records.
Qed.

Lemma from_records_shape (data : list item) : well_shaped (from_records data).
Proof.
  unfold well_shaped, from_records. simpl.
  apply Forall_forall. intros r (it & -> & _)%list_elem_of_fmap.
  by rewrite length_map.
Qed.

Lemma rename_shape (m : gmap string string) (df : DataFrame) :
  well_shaped df → well_shaped (rename m df).
Proof. unfold well_shaped. simpl. by rewrite length_map. Qed.

Lemma raw_shape (data : list item) :
  well_shaped (rename RENAME_COLUMNS (from_records data)).
Proof. apply rename_shape, from_records_shape. Qed.

Lemma sort_desc_shape (df : DataFrame) (key : row → cell) :
  well_shaped df →
  Forall (λ r : row, length r = length (columns df)) (sort_desc key (rows df)).
Proof. unfold well_shaped. by rewrite sort_desc_perm. Qed.

(** [rename] gives no column the name of the added one. *)
Lemma rename_keeps_Country_EN (c : string) :
  default c (RENAME_COLUMNS !! c) = "Country_EN" ↔ c = "Country_EN".
Proof.
  destruct (RENAME_COLUMNS !! c) as [v|] eqn:Hc; simpl; [|done].
  unfold RENAME_COLUMNS in Hc. apply elem_of_list_to_map_2 in Hc.
  rewrite !elem_of_cons, elem_of_nil in Hc.
  split; intros ->;
    repeat (destruct Hc as [Hc|Hc]; [discriminate|]); done.
Qed.

Lemma positions_Country_EN (data : list item) :
  length (positions "Country_EN"
            (columns (rename RENAME_COLUMNS (from_records data)))) ≤ 1.
Proof.
  unfold positions. simpl.
  rewrite positions_from_map by apply rename_keeps_Country_EN.
  apply positions_from_NoDup, NoDup_uniq.
Qed.

Lemma COUNTRY_MAPPING_nonempty (k v : string) :
  COUNTRY_MAPPING !! k = Some v → v ≠ "".
Proof.
  unfold COUNTRY_MAPPING. intros H%elem_of_list_to_map_2.
  rewrite !elem_of_cons, elem_of_nil in H.
  repeat (destruct H as [H|H]; [by injection H as -> ->|]). done.
Qed.

(** ** Normalisation, row by row *)

Lemma zip_with_map_self {A B C : Type} (f : B → A → C) (g : A → B) (l : list A) :
  zip_with f (map g l) l = map (λ x, f (g x) x) l.
Proof. induction l as [|x l IH]; simpl; [done|]. by rewrite IH. Qed.

Lemma set_all_cons (f : nat → cell) (j : nat) (ps : list nat) (r : row) :
  set_all f (j :: ps) r = <[j := f j]> (set_all f ps r).
Proof. reflexivity. Qed.

Lemma set_all_length (f : nat → cell) (ps : list nat) (r : row) :
  length (set_all f ps r) = length r.
Proof.
  induction ps as [|j ps IH]; [done|].
  by rewrite set_all_cons, length_insert.
Qed.

Lemma set_all_lookup_notin (f : nat → cell) (ps : list nat) (r : row) (i : nat) :
  i ∉ ps → set_all f ps r !! i = r !! i.
Proof.
  induction ps as [|j ps IH]; [done|].
  intros [Hne Hin]%not_elem_of_cons.
  rewrite set_all_cons, list_lookup_insert_ne by done. auto.
Qed.

Lemma set_all_lookup_in (f : nat → cell) (ps : list nat) (r : row) (i : nat) :
  i ∈ ps → i < length r → set_all f ps r !! i = Some (f i).
Proof.
  induction ps as [|j ps IH]; intros Hin Hlt.
  { by apply elem_of_nil in Hin. }
  rewrite set_all_cons. destruct (decide (j = i)) as [->|Hne].
  - apply list_lookup_insert_eq. by rewrite set_all_length.
  - rewrite list_lookup_insert_ne by done.
    apply elem_of_cons in Hin as [->|Hin]; [done|]. auto.
Qed.

Lemma clean_row_length (pc : list nat) (r : row) :
  length (clean_row pc r) = length r.
Proof. apply set_all_length. Qed.

Lemma clean_row_at (cols : list string) (r : row) (i : nat) :
  length r = length cols → cols !! i = Some "상세내용" →
  value_at i (clean_row (positions "상세내용" cols) r) =
  Some (remove_html_tags (value_at i r)).
Proof.
  intros Hlen Hi. unfold value_at at 1, clean_row.
  rewrite set_all_lookup_in; [done|by apply elem_of_positions|].
  rewrite Hlen. by eapply lookup_lt_Some.
Qed.

Lemma clean_row_other (cols : list string) (r : row) (i : nat) (l : string) :
  cols !! i = Some l → l ≠ "상세내용" →
  value_at i (clean_row (positions "상세내용" cols) r) = value_at i r.
Proof.
  intros Hi Hne. unfold value_at, clean_row.
  rewrite set_all_lookup_notin; [done|].
  rewrite elem_of_positions. congruence.
Qed.

(** A successful [normalize] in closed form. *)
Lemma normalize_inv (data : list item) (df : DataFrame) :
  normalize data = inr df →
  let raw := rename RENAME_COLUMNS (from_records data) in
  let pc := positions "상세내용" (columns raw) in
  let pe := positions "Country_EN" (columns raw) in
  ∃ id ik,
    loc raw "등록일" = inr id ∧ loc raw "국가" = inr ik ∧
    length pc ≤ 1 ∧
    columns df =
      (if is_nil pe then columns raw ++ ["Country_EN"] else columns raw) ∧
    rows df = map (λ r, country_row ik pe (clean_row pc r))
                  (sort_desc (value_at id) (rows raw)).
Proof.
  intros H raw pc pe. unfold normalize in H. fold raw in H.
  subst pc pe. clearbody raw.
  unfold sort_values_desc in H.
  destruct (loc raw "등록일") as [e|id] eqn:Hid; [done|].
  exists id. cbn [bind ret] in H.
  unfold has_column, get_column, set_column, has_column, loc, ret, raise in H.
  cbn [columns rows] in H.
  destruct (positions "상세내용" (columns raw)) as [|ic [|? ?]] eqn:Hpc;
    cbn [bind negb columns rows] in H; [| |done].
  - destruct (positions "국가" (columns raw)) as [|ik [|? ?]] eqn:Hik;
      cbn [bind negb columns rows] in H; [done| |done].
    injection H as <-. exists ik. cbn [columns rows].
    split_and!; [done|by apply loc_positions|simpl; lia| |].
    + by destruct (positions "Country_EN" (columns raw)).
    + rewrite zip_with_map_self, map_map, zip_with_map_self.
      apply map_ext. intros r. unfold country_row, clean_row, country_en.
      simpl. by destruct (positions "Country_EN" (columns raw)).
  - rewrite map_map, zip_with_map_self in H.
    destruct (positions "국가" (columns raw)) as [|ik [|? ?]] eqn:Hik;
      cbn [bind negb columns rows] in H; [done| |done].
    injection H as <-. exists ik. cbn [columns rows].
    split_and!; [done|by apply loc_positions|simpl; lia| |].
    + by destruct (positions "Country_EN" (columns raw)).
    + rewrite zip_with_map_self, (map_map (value_at ik)), zip_with_map_self,
        map_map.
      apply map_ext. intros r. unfold country_row, clean_row, country_en.
      simpl. by destruct (positions "Country_EN" (columns raw)).
Qed.

Lemma normalize_rows (data : list item) (df : DataFrame) :
  normalize data = inr df →
  let raw := rename RENAME_COLUMNS (from_records data) in
  ∃ (id ik je : nat) (g : row → row),
    loc raw "등록일" = inr id ∧ loc df "등록일" = inr id ∧
    loc raw "국가" = inr ik ∧ loc df "국가" = inr ik ∧
    loc df "Country_EN" = inr je ∧
    (∀ i l, columns df !! i = Some l → l ≠ "Country_EN" →
            columns raw !! i = Some l) ∧
    rows df = map g (sort_desc (value_at id) (rows raw)) ∧
    ∀ r0, length r0 = length (columns raw) →
      length (g r0) = length (columns df) ∧
      value_at je (g r0) = country_en (value_at ik r0) ∧
      (∀ i, columns df !! i = Some "상세내용" →
            value_at i (g r0) = Some (remove_html_tags (value_at i r0))) ∧
      (∀ i l, columns df !! i = Some l → l ≠ "상세내용" → l ≠ "Country_EN" →
              value_at i (g r0) = value_at i r0).
Proof.
  intros H raw.
  pose proof (positions_Country_EN data) as Hpe. fold raw in Hpe.
  destruct (normalize_inv _ _ H) as (id & ik & Hid & Hik & _ & Hcols & Hrows).
  fold raw in Hid, Hik, Hcols, Hrows. clearbody raw.
  set (cols := columns raw) in *.
  pose proof (loc_lookup _ _ _ Hid) as Hid'.
  pose proof (loc_lookup _ _ _ Hik) as Hik'. fold cols in Hid', Hik'.
  apply loc_positions in Hid, Hik. fold cols in Hid, Hik.
  destruct (positions "Country_EN" cols) as [|j pe] eqn:Hpos; simpl in Hcols.
  - exists id, ik, (length cols), (λ r, country_row ik [] (clean_row (positions "상세내용" cols) r)).
    split_and!; try (apply loc_positions; fold cols); try done.
    + by rewrite Hcols, positions_snoc_ne.
    + by rewrite Hcols, positions_snoc_ne.
    + by rewrite Hcols, positions_snoc_new.
    + intros i l Hi Hl. rewrite Hcols in Hi.
      apply lookup_app_Some in Hi as [Hi|[_ Hi]]; [done|].
      destruct (i - length cols) as [|[|?]]; simpl in Hi; congruence.
    + intros r0 Hlen. unfold country_row, set_cell. simpl.
      set (x := clean_row _ r0).
      assert (length x = length cols) as Hx.
      { unfold x. by rewrite clean_row_length. }
      rewrite Hcols. split_and!.
      * rewrite !length_app, Hx. done.
      * unfold value_at at 1. rewrite <- Hx, list_lookup_middle by done.
        simpl. f_equal. unfold x. by eapply clean_row_other.
      * intros i Hi. apply lookup_app_Some in Hi as [Hi|[_ Hi]].
        2:{ by destruct (i - length cols) as [|[|?]]. }
        unfold value_at at 1. rewrite lookup_app_l.
        2:{ rewrite Hx. by eapply lookup_lt_Some. }
        by apply clean_row_at.
      * intros i l Hi Hl1 Hl2. apply lookup_app_Some in Hi as [Hi|[_ Hi]].
        2:{ destruct (i - length cols) as [|[|?]]; simpl in Hi; congruence. }
        unfold value_at at 1. rewrite lookup_app_l.
        2:{ rewrite Hx. by eapply lookup_lt_Some. }
        by eapply clean_row_other.
  - destruct pe as [|? ?]; [|simpl in Hpe; lia]. clear Hpe.
    assert (cols !! j = Some "Country_EN") as Hj.
    { apply elem_of_positions. rewrite Hpos. apply list_elem_of_here. }
    exists id, ik, j, (λ r, country_row ik [j] (clean_row (positions "상세내용" cols) r)).
    split_and!; try (apply loc_positions; fold cols); try done;
      try by rewrite Hcols.
    intros r0 Hlen. unfold country_row, set_cell. cbn [is_nil].
    set (x := clean_row _ r0).
    assert (length x = length cols) as Hx.
    { unfold x. by rewrite clean_row_length. }
    change (foldr _ x [j]) with (set_all (λ _, country_en (value_at ik x)) [j] x).
    rewrite Hcols. split_and!.
    + by rewrite set_all_length.
    + unfold value_at at 1. rewrite set_all_lookup_in.
      * simpl. f_equal. unfold x. by eapply clean_row_other.
      * apply list_elem_of_here.
      * rewrite Hx. by eapply lookup_lt_Some.
    + intros i Hi. unfold value_at at 1. rewrite set_all_lookup_notin.
      * by apply clean_row_at.
      * intros ->%list_elem_of_singleton. congruence.
    + intros i l Hi Hl1 Hl2. unfold value_at at 1.
      rewrite set_all_lookup_notin.
      * by eapply clean_row_other.
      * intros ->%list_elem_of_singleton. congruence.
Qed.

Lemma normalize_sorted (data : list item) (df : DataFrame) :
  normalize data = inr df → sorted_desc_by "등록일" df.
Proof.
  intros H. destruct (normalize_rows _ _ H)
    as (id & ik & je & g & Hid & Hid' & _ & _ & _ & _ & Hrows & Hg).
  right. exists id. split; [done|]. rewrite Hrows.
  eapply sorted_map_key; [apply sort_desc_shape, raw_shape| |apply sort_desc_sorted].
  intros r Hr. simpl in Hr. destruct (Hg r Hr) as (_ & _ & _ & Hother).
  apply (Hother id "등록일"); [by apply loc_lookup|done..].
Qed.

Lemma normalize_len (data : list item) (df : DataFrame) :
  normalize data = inr df → len df = length data.
Proof.
  intros H. destruct (normalize_rows _ _ H)
    as (id & ik & je & g & _ & _ & _ & _ & _ & _ & Hrows & _).
  unfold len. rewrite Hrows, length_map.
  rewrite (Permutation_length (sort_desc_perm _ _)). simpl.
  by rewrite length_map.
Qed.

Lemma normalize_succeeds (data : list item) :
  normalizable data → ∃ df, normalize data = inr df.
Proof.
  intros (Hd & Hk & Hc). unfold normalize.
  set (raw := rename RENAME_COLUMNS (from_records data)) in *.
  clearbody raw.
  unfold sort_values_desc, has_column, get_column, set_column, has_column, loc,
    ret, raise.
  destruct (positions "등록일" (columns raw)) as [|id [|??]]; try done.
  cbn [bind columns rows].
  destruct (positions "상세내용" (columns raw)) as [|ic [|??]] eqn:Hpc;
    [| |simpl in Hc; lia]; cbn [bind negb columns rows];
    destruct (positions "국가" (columns raw)) as [|ik [|??]]; try done;
    cbn [bind]; eauto.
Qed.

Lemma api_records_normalizable (data : list item) :
  data ≠ [] → Forall api_record data → normalizable data.
Proof.
  intros Hne Hall. unfold normalizable. rewrite from_records_api by done.
  vm_compute. lia.
Qed.

Lemma normalize_api_columns (data : list item) (df : DataFrame) :
  data ≠ [] → Forall api_record data →
  normalize data = inr df → columns df = NORMALIZED_COLUMNS.
Proof.
  intros Hne Hall Hnorm.
  destruct (normalize_inv _ _ Hnorm) as (id & ik & _ & _ & _ & Hcols & _).
  rewrite from_records_api in Hcols by done.
  vm_compute in Hcols. exact Hcols.
Qed.

(** In a normalised frame a cell of the detail column is the cleaned
    text of what its item had under the column's raw name. *)
Lemma normalize_content (data : list item) (df : DataFrame) (i : nat) (r : row) :
  normalize data = inr df →
  columns df !! i = Some "상세내용" →
  r ∈ rows df →
  ∃ (it : item) (key : string),
    it ∈ data ∧
    columns (from_records data) !! i = Some key ∧
    (key = "CONTENT" ∨ key = "상세내용") ∧
    value_at i r = Some (remove_html_tags (item_get it key)).
Proof.
  intros Hnorm Hi Hr.
  destruct (normalize_rows _ _ Hnorm)
    as (id & ik & je & g & _ & _ & _ & _ & _ & Hcols & Hrows & Hg).
  rewrite Hrows in Hr. apply list_elem_of_fmap in Hr as (r0 & -> & Hr0).
  rewrite sort_desc_perm in Hr0. simpl in Hr0.
  apply list_elem_of_fmap in Hr0 as (it & -> & Hit).
  apply Hcols in Hi as Hraw; [|done]. simpl in Hraw.
  change (map ?f ?l) with (f <$> l) in Hraw.
  apply list_lookup_fmap_Some in Hraw as (key & Hren & Hkey).
  change (columns (from_records data) !! i = Some key) in Hkey.
  exists it, key.
  assert (value_at i (g (map (item_get it) (columns (from_records data))))
          = Some (remove_html_tags (item_get it key))) as Hval.
  { destruct (Hg (map (item_get it) (columns (from_records data))))
      as (_ & _ & Hcontent & _).
    { simpl. by rewrite !length_map. }
    rewrite (Hcontent i Hi). do 2 f_equal.
    unfold value_at. change (map ?f ?l) with (f <$> l).
    by rewrite list_lookup_fmap, Hkey. }
  split_and!; [done|done| |done].
  destruct (RENAME_COLUMNS !! key) as [v|] eqn:Hv; simpl in Hren; [|by right].
  subst v. unfold RENAME_COLUMNS in Hv. apply elem_of_list_to_map_2 in Hv.
  rewrite !elem_of_cons, elem_of_nil in Hv.
  repeat (destruct Hv as [Hv|Hv]; [by (injection Hv as ->; left) || discriminate|]).
  done.
Qed.

(** In a normalised frame the English name of every row is derived
    from its country cell. *)
Lemma normalize_country (data : list item) (df : DataFrame) (r : row) :
  normalize data = inr df → r ∈ rows df →
  ∃ ik je, loc df "국가" = inr ik ∧ loc df "Country_EN" = inr je ∧
           value_at je r = country_en (value_at ik r).
Proof.
  intros Hnorm Hr.
  destruct (normalize_rows _ _ Hnorm)
    as (id & ik & je & g & _ & _ & _ & Hik & Hje & _ & Hrows & Hg).
  exists ik, je. split_and!; [done|done|].
  rewrite Hrows in Hr. apply list_elem_of_fmap in Hr as (r0 & -> & Hr0).
  assert (length r0 = length (columns (rename RENAME_COLUMNS (from_records data))))
    as Hlen.
  { pose proof (sort_desc_shape _ (value_at id) (raw_shape data)) as Hshape.
    rewrite Forall_forall in Hshape. by apply Hshape. }
  destruct (Hg r0 Hlen) as (_ & Hen & _ & Hother).
  rewrite Hen. f_equal. symmetry.
  apply (Hother ik "국가"); [by apply loc_lookup|done..].
Qed.

(** ** The pagination loop *)

Section Pagination.

Variables (remote : params → response) (API_KEY bgnde endde : string).

Let win := window API_KEY bgnde endde.
Let run := paginate remote API_KEY bgnde endde.

Lemma paginate_cons (i : nat) (range : list nat) (st : fetch_state) :
  run (i :: range) st =
  match remote (win i) with
  | Raises msg =>
      (Some (RequestError msg), mkState (all_data st) (sent st ++ [win i]))
  | Json None | Json (Some []) =>
      (None, mkState (all_data st) (sent st ++ [win i]))
  | Json (Some ITEMS) =>
      run range (mkState (all_data st ++ ITEMS) (sent st ++ [win i]))
  end.
Proof.
  unfold run, win, window. cbn [paginate all_data sent].
  replace (i * batch_size + 1) with (100 * i + 1) by (unfold batch_size; lia).
  replace ((i + 1) * batch_size) with (100 * (i + 1))
    by (unfold batch_size; lia).
  reflexivity.
Qed.

(** Every run is a series of pages with items ended by an exception, by a
    response without items, or by the end of the range. *)
Lemma paginate_run (range : list nat) (st : fetch_state) :
  ∃ (k : nat) (got : list (list item)),
    k ≤ length range ∧
    Forall2 (λ i l, has_items (remote (win i)) l) (take k range) got ∧
    let st' := mkState (all_data st ++ concat got)
                       (sent st ++ map win (take (S k) range)) in
    match range !! k with
    | None => run range st = (None, st')
    | Some i =>
        (∃ msg, remote (win i) = Raises msg ∧
                run range st = (Some (RequestError msg), st')) ∨
        (no_items (remote (win i)) ∧ run range st = (None, st'))
    end.
Proof.
  revert st. induction range as [|i range IH]; intros st.
  { exists 0, []. split_and!; [done|constructor|].
    destruct st. simpl. by rewrite !app_nil_r. }
  rewrite paginate_cons.
  destruct (remote (win i)) as [msg|[[|it l]|]] eqn:Hr.
  - exists 0, []. split_and!; [simpl; lia|constructor|].
    simpl. rewrite app_nil_r. left. eauto.
  - exists 0, []. split_and!; [simpl; lia|constructor|].
    simpl. rewrite app_nil_r. right. split; [by right|done].
  - destruct (IH (mkState (all_data st ++ it :: l) (sent st ++ [win i])))
      as (k & got & Hk & Hgot & Hrun).
    exists (S k), ((it :: l) :: got). split_and!; [simpl; lia| |].
    { rewrite firstn_cons. constructor; [|done]. by split. }
    cbn [all_data sent] in Hrun. cbn [lookup list_lookup] in *.
    rewrite (firstn_cons (S k)), fmap_cons, concat_cons.
    rewrite <- !app_assoc in Hrun. exact Hrun.
  - exists 0, []. split_and!; [simpl; lia|constructor|].
    simpl. rewrite app_nil_r. right. split; [by left|done].
Qed.

(** Full pages at the head of the range are all collected. *)
Lemma paginate_through (page : nat → list item) (pre rest : list nat)
    (st : fetch_state) :
  (∀ i, i ∈ pre → has_items (remote (win i)) (page i)) →
  run (pre ++ rest) st =
  run rest (mkState (all_data st ++ concat (map page pre))
                    (sent st ++ map win pre)).
Proof.
  revert st. induction pre as [|i pre IH]; intros st Hfull.
  { destruct st. simpl. by rewrite !app_nil_r. }
  destruct (Hfull i) as [Hr Hne]; [apply list_elem_of_here|].
  simpl. rewrite paginate_cons, Hr.
  destruct (page i) as [|it l] eqn:Hp; [done|].
  rewrite IH by (intros; apply Hfull; by apply list_elem_of_further).
  cbn [all_data sent]. by rewrite <- !app_assoc.
Qed.

End Pagination.

(** ** One invocation of [fetch_food_data] *)

Section Fetch.

Variables (remote : params → response) (API_KEY : string)
          (start_date end_date : date).

Let out := fetch_food_data remote API_KEY start_date end_date.
Let data := collected remote API_KEY start_date end_date.
Let win := window API_KEY (strftime_Ymd start_date) (strftime_Ymd end_date).

Lemma fetch_unfold :
  out =
  let st := (pagination remote API_KEY start_date end_date).2 in
  match (pagination remote API_KEY start_date end_date).1 with
  | Some e => on_exception e st
  | None =>
      match all_data st with
      | [] => mkOutcome empty_frame [] (sent st)
      | _ =>
          match normalize (all_data st) with
          | inl e => on_exception e st
          | inr df => mkOutcome df [] (sent st)
          end
      end
  end.
Proof.
  unfold out, fetch_food_data, pagination.
  by destruct (paginate _ _ _ _ _ _) as [[e|] st].
Qed.

Lemma on_exception_frame (e : exn) (st : fetch_state) :
  frame (on_exception e st) = from_records (all_data st).
Proof. unfold on_exception. by destruct (all_data st). Qed.

(** The three ways an invocation ends. *)
Lemma fetch_cases :
  (errors out = [] ∧ data = [] ∧ frame out = empty_frame) ∨
  (errors out = [] ∧ data ≠ [] ∧ normalize data = inr (frame out)) ∨
  (∃ e, errors out = [e] ∧ frame out = from_records data).
Proof.
  rewrite fetch_unfold. unfold data, collected.
  destruct (pagination remote API_KEY start_date end_date) as [[e|] st];
    cbn [fst snd].
  { right. right. exists e. by rewrite on_exception_frame. }
  destruct (all_data st) as [|it l] eqn:Hdata.
  { by left. }
  destruct (normalize (it :: l)) as [e|df] eqn:Hn.
  - right. right. exists e. by rewrite on_exception_frame, Hdata.
  - right. left. done.
Qed.

Lemma fetch_requests :
  requests out = sent (pagination remote API_KEY start_date end_date).2.
Proof.
  rewrite fetch_unfold.
  destruct (pagination remote API_KEY start_date end_date) as [[e|] st];
    cbn [fst snd]; [done|].
  destruct (all_data st); [done|]. by destruct (normalize _).
Qed.

(** The calls of an invocation: the windows of pages [0 .. n-1], every
    page but the last one with items, and the last one without unless it is
    the fifth. *)
Lemma fetch_trace :
  ∃ n, 1 ≤ n ≤ 5 ∧ requests out = map win (seq 0 n) ∧
       (∀ i, S i < n → ∃ l, has_items (remote (win i)) l) ∧
       (n < 5 → ¬ ∃ l, has_items (remote (win (n - 1))) l).
Proof.
  rewrite fetch_requests. unfold pagination.
  destruct (paginate_run remote API_KEY (strftime_Ymd start_date)
              (strftime_Ymd end_date) (seq 0 5) (mkState [] []))
    as (k & got & Hk & Hgot & Hrun).
  fold win in Hgot, Hrun. rewrite length_seq in Hk.
  cbn [all_data sent app] in Hrun.
  assert (∀ i, i < k → ∃ l, has_items (remote (win i)) l) as Hfull.
  { intros i Hi.
    assert (take k (seq 0 5) !! i = Some i) as Hi'.
    { rewrite lookup_take_lt by done. apply lookup_seq. lia. }
    destruct (Forall2_lookup_l _ _ _ _ _ Hgot Hi') as (l & _ & Hl). eauto. }
  exists (S k `min` 5). rewrite <- take_seq.
  destruct (seq 0 5 !! k) as [i|] eqn:Hi.
  - apply lookup_seq in Hi as [Heq Hlt]. simpl in Heq, Hlt. subst i.
    assert (¬ ∃ l, has_items (remote (win k)) l) as Hstop.
    { intros (l & Hl & Hne).
      destruct Hrun as [(msg & Hr & _)|([Hr|Hr] & _)]; congruence. }
    assert (sent (paginate remote API_KEY (strftime_Ymd start_date)
                    (strftime_Ymd end_date) (seq 0 5) (mkState [] [])).2 =
            map win (take (S k) (seq 0 5))) as ->.
    { by destruct Hrun as [(msg & _ & ->)|(_ & ->)]. }
    split_and!; [lia|lia|done| |].
    + intros i Hlt'. apply Hfull. lia.
    + intros _. by replace (S k `min` 5 - 1) with k by lia.
  - apply lookup_ge_None in Hi. rewrite length_seq in Hi.
    assert (k = 5) as -> by lia. rewrite Hrun. cbn [snd sent].
    split_and!; [lia|lia|done| |lia].
    intros i Hlt. apply Hfull. lia.
Qed.

(** The loop after [k] pages with items. *)
Lemma pagination_through (page : nat → list item) (k : nat) :
  k ≤ 5 →
  (∀ i, i < k → has_items (remote (win i)) (page i)) →
  pagination remote API_KEY start_date end_date =
  paginate remote API_KEY (strftime_Ymd start_date) (strftime_Ymd end_date)
    (seq k (5 - k))
    (mkState (concat (map page (seq 0 k))) (map win (seq 0 k))).
Proof.
  intros Hk Hfull. unfold pagination.
  replace 5 with (k + (5 - k)) at 1 by lia. rewrite seq_app.
  rewrite (paginate_through _ _ _ _ page).
  - done.
  - intros i Hi%elem_of_seq. apply Hfull. lia.
Qed.

Lemma pagination_raised (page : nat → list item) (k : nat) (msg : string) :
  k < 5 →
  (∀ i, i < k → has_items (remote (win i)) (page i)) →
  remote (win k) = Raises msg →
  pagination remote API_KEY start_date end_date =
  (Some (RequestError msg),
   mkState (concat (map page (seq 0 k))) (map win (seq 0 (S k)))).
Proof.
  intros Hk Hfull Hr. rewrite (pagination_through page k) by (done || lia).
  replace (5 - k) with (S (4 - k)) by lia. rewrite <- cons_seq.
  rewrite paginate_cons. fold win. rewrite Hr. cbn [all_data sent].
  by rewrite seq_S, map_app.
Qed.

Lemma pagination_stopped (page : nat → list item) (k : nat) :
  k < 5 →
  (∀ i, i < k → has_items (remote (win i)) (page i)) →
  no_items (remote (win k)) →
  pagination remote API_KEY start_date end_date =
  (None, mkState (concat (map page (seq 0 k))) (map win (seq 0 (S k)))).
Proof.
  intros Hk Hfull Hr. rewrite (pagination_through page k) by (done || lia).
  replace (5 - k) with (S (4 - k)) by lia. rewrite <- cons_seq.
  rewrite paginate_cons. fold win. cbn [all_data sent].
  rewrite seq_S, map_app. by destruct Hr as [-> | ->].
Qed.

End Fetch.

(** An invocation whose call for page [k] raises after [k] pages with
    items. *)
Lemma fetch_after_exception
    (remote : params → response) (API_KEY : string) (start_date end_date : date)
    (page : nat → list item) (k : nat) (msg : string) :
  let win := window API_KEY (strftime_Ymd start_date) (strftime_Ymd end_date) in
  let out := fetch_food_data remote API_KEY start_date end_date in
  k < 5 →
  (∀ i, i < k → has_items (remote (win i)) (page i)) →
  remote (win k) = Raises msg →
  requests out = map win (seq 0 (S k)) ∧
  errors out = [RequestError msg] ∧
  frame out = from_records (concat (map page (seq 0 k))).
Proof.
  intros win out Hk Hfull Hr.
  pose proof (pagination_raised remote API_KEY start_date end_date
                page k msg Hk Hfull Hr) as Hrun.
  unfold out. rewrite fetch_unfold, Hrun. cbn [fst snd].
  by rewrite on_exception_frame.
Qed.

(** Without an exception the frame is sorted in descending date
    order. *)
Lemma fetch_sorted_without_exception
    (remote : params → response) (API_KEY : string) (start_date end_date : date) :
  let out := fetch_food_data remote API_KEY start_date end_date in
  errors out = [] → sorted_desc_by "등록일" (frame out).
Proof.
  intros out Herr. subst out.
  destruct (fetch_cases remote API_KEY start_date end_date)
    as [(_ & _ & Hf)|[(_ & _ & Hn)|(e & He & _)]].
  - left. by rewrite Hf.
  - by eapply normalize_sorted.
  - congruence.
Qed.

(** A frame returned without an exception and with a row in it is the
    normalised frame of the items gathered. *)
Lemma fetch_normalized
    (remote : params → response) (API_KEY : string) (start_date end_date : date)
    (r : row) :
  let out := fetch_food_data remote API_KEY start_date end_date in
  errors out = [] → r ∈ rows (frame out) →
  normalize (collected remote API_KEY start_date end_date) = inr (frame out).
Proof.
  intros out Herr Hr. subst out.
  destruct (fetch_cases remote API_KEY start_date end_date)
    as [(_ & _ & Hf)|[(_ & _ & Hn)|(e & He & _)]].
  - rewrite Hf in Hr. by apply elem_of_nil in Hr.
  - done.
  - congruence.
Qed.

(** ** The tabs *)

Lemma filter_filter (p : row → bool) (l : list row) :
  List.filter p (List.filter p l) = List.filter p l.
Proof.
  induction l as [|r l IH]; simpl; [done|].
  destruct (p r) eqn:Hp; simpl; [|done]. by rewrite Hp, IH.
Qed.

Lemma filtered_df_inv (df fdf : DataFrame) (filter_type filter_country : list cell) :
  filtered_df df filter_type filter_country = inr fdf →
  ∃ i j, loc df "구분" = inr i ∧ loc df "국가" = inr j ∧
         fdf = select (λ r, isin filter_type (value_at i r)
                            && isin filter_country (value_at j r)) df.
Proof.
  unfold filtered_df. intros H.
  destruct (loc df "구분") as [|i]; [done|].
  destruct (loc df "국가") as [|j]; [done|].
  injection H as <-. eauto.
Qed.

Lemma country_data_inv (fdf : DataFrame) (j : nat) (selected_country : cell) :
  loc fdf "국가" = inr j →
  country_data fdf selected_country =
  inr (select (λ r, eq_cell (value_at j r) selected_country) fdf).
Proof. unfold country_data. by intros ->. Qed.

(** * The claims *)

(** ** Order of the returned frame *)

(** C1, at an input where it fails.  The first call returns two
    notices, the older one first, and the second call raises.  The
    frame returned has both rows, still under the raw field names and
    in arrival order: it is sorted neither by [등록일], a column it
    does not have, nor by [REGISTRATION_DATE]; and the first tab, which
    reads the column [구분], raises on it. *)
Theorem fetch_partial_not_sorted :
  let out := fetch_food_data failing_second_call "key" sample_start sample_end in
  errors out = [RequestError "503 Server Error"] ∧
  columns (frame out) = API_FIELDS ∧
  map (value_at 4) (rows (frame out)) = [Some "20241105"; Some "20241218"] ∧
  ¬ sorted_desc_by "등록일" (frame out) ∧
  ¬ sorted_desc_by "REGISTRATION_DATE" (frame out) ∧
  unique_values (frame out) "구분" = inl (KeyError "구분").
Proof.
  split_and!; try reflexivity.
  - intros [Hnil|(i & Hloc & _)]; discriminate.
  - intros [Hnil|(i & Hloc & Hs)]; [discriminate|].
    injection Hloc as <-.
    apply StronglySorted_cons in Hs as [Hfst _].
    apply Forall_cons in Hfst as [Hd _]. discriminate.
Qed.

(** ** Detail text *)

(** C2, as stated, fails: a notice whose detail text is the escaped
    tag ["&lt;b&gt;"] is fetched without an exception and its detail
    cell is ["<b>"], a match of the tag pattern. *)
Lemma content_can_hold_a_tag :
  let out := fetch_food_data escaped_markup "key" sample_start sample_end in
  errors out = [] ∧
  ∃ (i : nat) (r : row) (s : string),
    loc (frame out) "상세내용" = inr i ∧ r ∈ rows (frame out) ∧
    value_at i r = Some s ∧ contains_tag s = true.
Proof.
  split; [reflexivity|].
  exists 3, [Some "rice cake"; Some "대한민국"; Some "회수"; Some "<b>";
             Some "20241201"; None; Some "South Korea"], "<b>".
  split_and!; try reflexivity.
  vm_compute. apply list_elem_of_here.
Qed.

(** C2, amended.  In a frame fetched without an exception every cell of
    the detail column is cleaned text: it contains none of the entities
    [&nbsp;], [&lt;], [&gt;]; the tags of the raw text were removed
    before unescaping; and it contains a match of the tag pattern only
    if the text left by the tag removal still had an escaped angle
    bracket. *)
Theorem content_is_cleaned
    (remote : params → response) (API_KEY : string) (start_date end_date : date)
    (i : nat) (r : row) :
  let out := fetch_food_data remote API_KEY start_date end_date in
  errors out = [] →
  columns (frame out) !! i = Some "상세내용" →
  r ∈ rows (frame out) →
  ∃ raw : cell,
    value_at i r = Some (remove_html_tags raw) ∧
    (∀ e, e ∈ ENTITIES → PyStr.occurs e (remove_html_tags raw) = false) ∧
    (∀ t, raw = Some t →
          contains_tag (sub_tags t) = false ∧
          (PyStr.occurs "&lt;" (sub_tags t) = false →
           PyStr.occurs "&gt;" (sub_tags t) = false →
           contains_tag (remove_html_tags raw) = false)).
Proof.
  intros out Herr Hi Hr.
  pose proof (fetch_normalized remote API_KEY start_date end_date r Herr Hr)
    as Hnorm.
  destruct (normalize_content _ _ _ _ Hnorm Hi Hr)
    as (it & key & _ & _ & _ & Hval).
  exists (item_get it key). split_and!; [done| |].
  - intros e He. by apply remove_html_tags_no_entity.
  - intros t ->. split; [apply sub_tags_clean|].
    apply remove_html_tags_clean.
Qed.

Lemma content_is_cleaned_witness :
  let out := fetch_food_data mixed_notices "key" sample_start sample_end in
  let r := [Some "dried mango"; Some "태국"; Some "회수"; Some "sulfite excess";
            Some "20241105"; None; Some "Thailand"] in
  ∃ raw : cell,
    value_at 3 r = Some (remove_html_tags raw) ∧
    (∀ e, e ∈ ENTITIES → PyStr.occurs e (remove_html_tags raw) = false) ∧
    (∀ t, raw = Some t →
          contains_tag (sub_tags t) = false ∧
          (PyStr.occurs "&lt;" (sub_tags t) = false →
           PyStr.occurs "&gt;" (sub_tags t) = false →
           contains_tag (remove_html_tags raw) = false)).
Proof.
  intros out r.
  apply (content_is_cleaned mixed_notices "key" sample_start sample_end 3 r).
  - reflexivity.
  - reflexivity.
  - vm_compute. do 2 apply list_elem_of_further. apply list_elem_of_here.
Defined.

(** ** Failures during acquisition *)

(** C3.  If the call for page [k] raises after [k] pages with items, the
    invocation has made [k+1] calls, reports that one exception, and
    returns the frame of exactly the items of those [k] pages, in
    arrival order (no rows when [k = 0]).  The result is an ordinary
    value: nothing is raised to the caller.  When the second call
    fails after a first page of 100 items, the frame is that of the
    first page alone and has 100 rows. *)
Theorem fetch_partial_on_exception
    (remote : params → response) (API_KEY : string) (start_date end_date : date)
    (page : nat → list item) (k : nat) (msg : string) :
  let win := window API_KEY (strftime_Ymd start_date) (strftime_Ymd end_date) in
  let out := fetch_food_data remote API_KEY start_date end_date in
  let gathered := concat (map page (seq 0 k)) in
  k < 5 →
  (∀ i, i < k → has_items (remote (win i)) (page i)) →
  remote (win k) = Raises msg →
  requests out = map win (seq 0 (S k)) ∧
  errors out = [RequestError msg] ∧
  frame out = from_records gathered ∧
  len (frame out) = length gathered ∧
  (k = 0 → frame out = empty_frame) ∧
  (k = 1 → frame out = from_records (page 0) ∧
           (length (page 0) = 100 → len (frame out) = 100)).
Proof.
  intros win out gathered Hk Hfull Hr.
  destruct (fetch_after_exception remote API_KEY start_date end_date
              page k msg Hk Hfull Hr) as (Hreq & Herr & Hframe).
  fold out gathered in Hreq, Herr, Hframe.
  split_and!; try done.
  - rewrite Hframe. unfold len, from_records. simpl. by rewrite length_map.
  - intros ->. by rewrite Hframe.
  - intros ->. rewrite Hframe. unfold gathered. simpl. rewrite app_nil_r.
    split; [done|]. intros <-. unfold len, from_records. simpl.
    by rewrite length_map.
Qed.

Lemma fetch_partial_on_exception_witness :
  let out := fetch_food_data full_then_failing "key" sample_start sample_end in
  errors out = [RequestError "503 Server Error"] ∧ len (frame out) = 100.
Proof.
  pose proof (fetch_partial_on_exception full_then_failing "key"
                sample_start sample_end
                (λ _, replicate 100 older_notice) 1 "503 Server Error") as H.
  destruct H as (_ & Herr & _ & Hlen & _).
  - lia.
  - intros i Hi. assert (i = 0) as -> by lia. split; [reflexivity|discriminate].
  - reflexivity.
  - split; [exact Herr|]. rewrite Hlen. reflexivity.
Defined.

(** ** Pagination *)

(** C4.  An invocation makes [n] calls, [1 ≤ n ≤ 5]; call [i] asks for
    the window from [100 i + 1] to [100 (i + 1)]; and a response
    without items is the last call made.  After three full pages of
    100 items and a fourth response without items there have been
    exactly 4 calls and the frame has exactly 300 rows; for items that
    carry the fields normalisation needs, no error is reported and the
    frame is the normalised one, sorted in descending date order; for
    API records its columns are the renamed fields and [Country_EN]. *)
Theorem pagination_windows_and_stop
    (remote : params → response) (API_KEY : string) (start_date end_date : date) :
  let win := window API_KEY (strftime_Ymd start_date) (strftime_Ymd end_date) in
  let out := fetch_food_data remote API_KEY start_date end_date in
  (∃ n, 1 ≤ n ≤ 5 ∧
        requests out = map win (seq 0 n) ∧
        (∀ i, i < n → startIndex (win i) = 100 * i + 1 ∧
                      endIndex (win i) = 100 * (i + 1)) ∧
        (∀ i, i < n → no_items (remote (win i)) → n = S i)) ∧
  (∀ page : nat → list item,
     (∀ i, i < 3 → remote (win i) = Json (Some (page i)) ∧
                   length (page i) = 100) →
     no_items (remote (win 3)) →
     let gathered := page 0 ++ page 1 ++ page 2 in
     requests out = map win (seq 0 4) ∧
     length (requests out) = 4 ∧
     len (frame out) = 300 ∧
     (normalizable gathered →
      errors out = [] ∧
      normalize gathered = inr (frame out) ∧
      sorted_desc_by "등록일" (frame out)) ∧
     (Forall api_record gathered →
      errors out = [] ∧
      columns (frame out) = NORMALIZED_COLUMNS ∧
      sorted_desc_by "등록일" (frame out))).
Proof.
  intros win out. split.
  - destruct (fetch_trace remote API_KEY start_date end_date)
      as (n & Hn & Hreq & Hfull & _).
    exists n. split_and!; [lia|lia|done|done|].
    intros i Hi Hno. destruct (decide (S i < n)) as [Hlt|]; [|lia].
    destruct (Hfull i Hlt) as (l & Hl & Hne).
    fold win in Hl. destruct Hno as [Hno|Hno]; congruence.
  - intros page Hpages Hstop gathered.
    assert (∀ i, i < 3 → has_items (remote (win i)) (page i)) as Hfull.
    { intros i Hi. destruct (Hpages i Hi) as [Hr Hlen]. split; [done|].
      intros Hnil. rewrite Hnil in Hlen. done. }
    pose proof (pagination_stopped remote API_KEY start_date end_date
                  page 3 ltac:(lia) Hfull Hstop) as Hrun.
    assert (concat (map page (seq 0 3)) = gathered) as Hg.
    { unfold gathered. simpl. by rewrite app_nil_r. }
    rewrite Hg in Hrun.
    assert (length gathered = 300) as Hlen.
    { unfold gathered. rewrite !length_app.
      destruct (Hpages 0), (Hpages 1), (Hpages 2); lia. }
    unfold out. rewrite fetch_unfold, Hrun. cbn [fst snd all_data sent].
    destruct gathered as [|it rest] eqn:Hdata; [done|]. rewrite <- Hdata in *.
    destruct (normalize gathered) as [e|df] eqn:Hnorm.
    + rewrite on_exception_frame. cbn [on_exception requests errors all_data sent].
      split_and!; [done|done| | |].
      * unfold len, from_records. simpl. by rewrite length_map.
      * intros [df Hdf]%normalize_succeeds. congruence.
      * intros Hall. apply api_records_normalizable in Hall; [|by rewrite Hdata].
        apply normalize_succeeds in Hall as [df Hdf]. congruence.
    + cbn [requests errors frame]. split_and!; [done|done| | |].
      * by rewrite (normalize_len _ _ Hnorm).
      * intros _. split_and!; [done|done|]. by eapply normalize_sorted.
      * intros Hall. split_and!; [done| |by eapply normalize_sorted].
        eapply normalize_api_columns; [|done..]. by rewrite Hdata.
Qed.

Lemma pagination_windows_and_stop_witness :
  let out := fetch_food_data three_full_pages "key" sample_start sample_end in
  length (requests out) = 4 ∧ len (frame out) = 300 ∧ errors out = [] ∧
  sorted_desc_by "등록일" (frame out).
Proof.
  pose proof (pagination_windows_and_stop three_full_pages "key"
                sample_start sample_end) as [_ H].
  destruct (H (λ _, replicate 100 newer_notice)) as (_ & Hc & Hl & Hn & _).
  - intros i Hi.
    assert (i = 0 ∨ i = 1 ∨ i = 2) as [->|[->| ->]] by lia;
      split; reflexivity.
  - right. reflexivity.
  - destruct Hn as (He & _ & Hs).
    + apply api_records_normalizable; [discriminate|].
      rewrite !Forall_app. split_and!;
        apply Forall_forall; intros it ->%elem_of_replicate_inv; reflexivity.
    + exact (conj Hc (conj Hl (conj He Hs))).
Defined.

(** ** The English country name *)

(** C5.  In a frame fetched without an exception, the cell [Country_EN]
    of every row is the value the table has for the row's [국가], or
    that cell itself when the table has no such key; so it is a
    non-empty name whenever [국가] is one.  ["대한민국"] gives
    ["South Korea"] and ["Atlantis"] gives ["Atlantis"]. *)
Theorem country_en_is_mapped_or_kept :
  (∀ (remote : params → response) (API_KEY : string)
     (start_date end_date : date) (r : row),
     let out := fetch_food_data remote API_KEY start_date end_date in
     errors out = [] → r ∈ rows (frame out) →
     ∃ ik je,
       loc (frame out) "국가" = inr ik ∧
       loc (frame out) "Country_EN" = inr je ∧
       value_at je r = country_en (value_at ik r)) ∧
  (∀ k v, COUNTRY_MAPPING !! k = Some v → country_en (Some k) = Some v) ∧
  (∀ k, COUNTRY_MAPPING !! k = None → country_en (Some k) = Some k) ∧
  (∀ k, k ≠ "" → ∃ v, country_en (Some k) = Some v ∧ v ≠ "") ∧
  country_en (Some "대한민국") = Some "South Korea" ∧
  country_en (Some "Atlantis") = Some "Atlantis".
Proof.
  split_and!.
  - intros remote API_KEY start_date end_date r out Herr Hr.
    eapply normalize_country; [|done].
    by eapply fetch_normalized.
  - intros k v Hk. unfold country_en, map_dict. by rewrite Hk.
  - intros k Hk. unfold country_en, map_dict. by rewrite Hk.
  - intros k Hk. unfold country_en, map_dict.
    destruct (COUNTRY_MAPPING !! k) as [v|] eqn:Hv; cbn [fillna]; [|eauto].
    exists v. split; [done|]. by eapply COUNTRY_MAPPING_nonempty.
  - by vm_compute.
  - by vm_compute.
Qed.

Lemma country_en_is_mapped_or_kept_witness :
  let out := fetch_food_data mixed_notices "key" sample_start sample_end in
  let r := [Some "soy sauce"; Some "일본"; Some "회수"; Some "3-MCPD";
            Some "20241218"; Some "https://example.org/1"; Some "Japan"] in
  (∃ ik je,
     loc (frame out) "국가" = inr ik ∧
     loc (frame out) "Country_EN" = inr je ∧
     value_at je r = country_en (value_at ik r)) ∧
  country_en (Some "일본") = Some "Japan" ∧
  (∃ v, country_en (Some "El Dorado") = Some v ∧ v ≠ "").
Proof.
  intros out r.
  destruct country_en_is_mapped_or_kept as (Hrow & Hmap & _ & Hne & _).
  split_and!.
  - apply (Hrow mixed_notices "key" sample_start sample_end r).
    + reflexivity.
    + vm_compute. apply list_elem_of_here.
  - apply Hmap. vm_compute. reflexivity.
  - apply Hne. discriminate.
Defined.

(** ** Drill-down and filters *)

(** C6.  For a frame sorted by date, any two selections and any
    selected country, the drill-down goes through the first five rows
    (all of them if there are fewer) of the filtered frame restricted
    to that country: five rows when seven match; in descending order of
    date; and every row left out is no more recent than every row
    listed. *)
Theorem drill_down_lists_most_recent
    (df fdf : DataFrame) (filter_type filter_country : list cell)
    (selected_country : cell) :
  sorted_desc_by "등록일" df →
  filtered_df df filter_type filter_country = inr fdf →
  ∃ (ik : nat) (cd shown : DataFrame),
    loc fdf "국가" = inr ik ∧
    country_data fdf selected_country = inr cd ∧
    drill_down fdf selected_country = inr shown ∧
    rows cd =
      List.filter (λ r, eq_cell (value_at ik r) selected_country) (rows fdf) ∧
    rows shown = take 5 (rows cd) ∧
    len shown = len cd `min` 5 ∧
    (len cd = 7 → len shown = 5) ∧
    sorted_desc_by "등록일" shown ∧
    (∀ id r r', loc df "등록일" = inr id →
                r ∈ rows shown → r' ∈ drop 5 (rows cd) →
                desc (value_at id) r r').
Proof.
  intros Hsorted Hf.
  apply filtered_df_inv in Hf as (i & j & Hi & Hj & ->).
  set (fdf := select _ df).
  assert (loc fdf "국가" = inr j) as Hj' by by rewrite (loc_columns df).
  set (cd := select (λ r, eq_cell (value_at j r) selected_country) fdf).
  assert (∀ id, loc df "등록일" = inr id →
                StronglySorted (desc (value_at id)) (rows df) →
                StronglySorted (desc (value_at id)) (rows cd)) as Hcd.
  { intros id _ Hs. by do 2 apply sorted_filter. }
  exists j, cd, (head 5 cd).
  assert (len (head 5 cd) = len cd `min` 5) as Hlen.
  { unfold len, head. cbn [rows]. rewrite length_take. lia. }
  split_and!; try done.
  - by apply country_data_inv.
  - unfold drill_down. by rewrite (country_data_inv _ j).
  - lia.
  - destruct Hsorted as [Hnil|(id & Hid & Hs)].
    + left. unfold head, cd, fdf, select. cbn [rows]. by rewrite Hnil.
    + right. exists id. split; [by rewrite <- Hid|].
      apply sorted_take. auto.
  - intros id r r' Hid Hr Hr'.
    destruct Hsorted as [Hnil|(id' & Hid' & Hs)].
    + unfold head, cd, fdf, select in Hr. cbn [rows] in Hr.
      rewrite Hnil in Hr. simpl in Hr. by apply elem_of_nil in Hr.
    + assert (id' = id) as -> by congruence.
      pose proof (Hcd id Hid Hs) as Hs'.
      rewrite <- (take_drop 5 (rows cd)) in Hs'.
      by eapply StronglySorted_app_1_elem_of.
Qed.

Lemma drill_down_lists_most_recent_witness :
  let df := frame (fetch_food_data drill_down_api "key" sample_start sample_end) in
  let all := [Some "일본"; Some "중국"; Some "미국"] in
  ∃ fdf shown,
    filtered_df df [Some "회수"] all = inr fdf ∧
    drill_down fdf (Some "일본") = inr shown ∧
    len shown = 5 ∧
    map (value_at 4) (rows shown) =
      [Some "20241125"; Some "20241119"; Some "20241115"; Some "20241111";
       Some "20241107"].
Proof.
  intros df all.
  destruct (filtered_df df [Some "회수"] all) as [e|fdf] eqn:Hf.
  { vm_compute in Hf. discriminate. }
  destruct (drill_down_lists_most_recent df fdf [Some "회수"] all (Some "일본"))
    as (ik & cd & shown & Hik & _ & Hshown & Hcd & Hrows & _ & Hseven & _).
  - by apply fetch_sorted_without_exception.
  - exact Hf.
  - exists fdf, shown. split_and!; [done|done| |].
    + apply Hseven. unfold len. rewrite Hcd.
      vm_compute in Hf. injection Hf as <-.
      vm_compute in Hik. injection Hik as <-. reflexivity.
    + rewrite Hrows, Hcd.
      vm_compute in Hf. injection Hf as <-.
      vm_compute in Hik. injection Hik as <-. reflexivity.
Defined.

(** C7.  Filtering is idempotent: filtering the filtered frame again
    with the same two selections gives the filtered frame, rows and
    columns alike; and where the first filtering raises, there is no
    frame to filter again and the exception stands. *)
Theorem filtered_df_idempotent
    (df : DataFrame) (filter_type filter_country : list cell) :
  (fdf <- filtered_df df filter_type filter_country ;;
   filtered_df fdf filter_type filter_country)
  = filtered_df df filter_type filter_country.
Proof.
  destruct (filtered_df df filter_type filter_country) as [e|fdf] eqn:H;
    [done|].
  cbn [bind].
  apply filtered_df_inv in H as (i & j & Hi & Hj & ->).
  unfold filtered_df.
  rewrite !(loc_columns df (select _ df)) by done.
  rewrite Hi, Hj. cbn [bind]. unfold ret, select. cbn [columns rows].
  by rewrite filter_filter.
Qed.

(** ** Missing and raw values *)

(** C8.  A missing or null detail value becomes the empty string:
    [remove_html_tags] sends a missing value to [""], and in a
    normalised frame every cell of the detail column is the cleaned
    text of the raw value its item had under [CONTENT] (or under the
    column's own name), so an item without that value has [""] there
    and never a missing value. *)
Theorem missing_content_is_empty :
  remove_html_tags None = "" ∧
  ∀ (data : list item) (df : DataFrame) (i : nat) (r : row),
    normalize data = inr df →
    columns df !! i = Some "상세내용" →
    r ∈ rows df →
    ∃ (it : item) (key : string),
      it ∈ data ∧
      columns (from_records data) !! i = Some key ∧
      (key = "CONTENT" ∨ key = "상세내용") ∧
      value_at i r = Some (remove_html_tags (item_get it key)) ∧
      (item_get it key = None → value_at i r = Some "").
Proof.
  split; [reflexivity|]. intros data df i r Hnorm Hi Hr.
  destruct (normalize_content _ _ _ _ Hnorm Hi Hr)
    as (it & key & Hit & Hkey & Hname & Hval).
  exists it, key. split_and!; try done.
  intros Hnone. by rewrite Hval, Hnone.
Qed.

Lemma missing_content_is_empty_witness :
  let df := frame (fetch_food_data mixed_notices "key" sample_start sample_end) in
  let r := [Some "herbal tea"; Some "Atlantis"; Some "정보"; Some "";
            Some "20241120"; None; Some "Atlantis"] in
  ∃ (it : item) (key : string),
    it ∈ sample_items ∧
    columns (from_records sample_items) !! 3 = Some key ∧
    (key = "CONTENT" ∨ key = "상세내용") ∧
    value_at 3 r = Some (remove_html_tags (item_get it key)) ∧
    (item_get it key = None → value_at 3 r = Some "").
Proof.
  intros df r.
  apply (proj2 missing_content_is_empty sample_items df 3 r).
  - vm_compute. reflexivity.
  - reflexivity.
  - vm_compute. apply list_elem_of_further, list_elem_of_here.
Defined.

(** C9.  When the call for page [k] raises after at least one
    page, the frame returned is the one built directly from the items
    gathered: its columns are the keys the API sent, and none of
    renaming, sorting, tag removal or the English country name has been
    applied.  For API records the columns are the six raw field names
    and each row holds the raw cells of its item, in arrival order. *)
Theorem partial_table_is_raw
    (remote : params → response) (API_KEY : string) (start_date end_date : date)
    (page : nat → list item) (k : nat) (msg : string) :
  let win := window API_KEY (strftime_Ymd start_date) (strftime_Ymd end_date) in
  let out := fetch_food_data remote API_KEY start_date end_date in
  let gathered := concat (map page (seq 0 k)) in
  0 < k < 5 →
  (∀ i, i < k → has_items (remote (win i)) (page i)) →
  remote (win k) = Raises msg →
  gathered ≠ [] ∧
  frame out = from_records gathered ∧
  columns (frame out) = uniq (concat (map (λ it : item, it.*1) gathered)) ∧
  (Forall api_record gathered →
   columns (frame out) = API_FIELDS ∧
   rows (frame out) = map (λ it, map (item_get it) API_FIELDS) gathered ∧
   has_column (frame out) "Country_EN" = false ∧
   ∀ old new, RENAME_COLUMNS !! old = Some new →
              has_column (frame out) old = true ∧
              has_column (frame out) new = false).
Proof.
  intros win out gathered [Hk0 Hk] Hfull Hr.
  destruct (fetch_after_exception remote API_KEY start_date end_date
              page k msg Hk Hfull Hr) as (_ & _ & Hframe).
  fold out gathered in Hframe.
  assert (gathered ≠ []) as Hne.
  { unfold gathered. destruct k as [|k]; [lia|].
    destruct (Hfull 0) as [_ Hp]; [lia|].
    rewrite <- cons_seq. simpl. intros [? _]%app_eq_nil. done. }
  split_and!; [done|done|by rewrite Hframe|].
  intros Hall. rewrite Hframe, from_records_api by done.
  split_and!; [done|done|done|].
  intros old new Hon. unfold RENAME_COLUMNS in Hon.
  apply elem_of_list_to_map_2 in Hon.
  rewrite !elem_of_cons, elem_of_nil in Hon.
  repeat (destruct Hon as [Hon|Hon]; [by injection Hon as -> ->|]). done.
Qed.

Lemma partial_table_is_raw_witness :
  let out := fetch_food_data failing_second_call "key" sample_start sample_end in
  columns (frame out) = API_FIELDS ∧
  rows (frame out) =
    map (λ it, map (item_get it) API_FIELDS) [older_notice; newer_notice].
Proof.
  pose proof (partial_table_is_raw failing_second_call "key"
                sample_start sample_end
                (λ _, [older_notice; newer_notice]) 1 "503 Server Error") as H.
  destruct H as (_ & _ & _ & H).
  - lia.
  - intros i Hi. assert (i = 0) as -> by lia. split; [reflexivity|discriminate].
  - reflexivity.
  - destruct H as (Hc & Hr & _); [|by split].
    repeat constructor.
Defined.

(** C10.  Entities are unescaped after the tags are removed, so
    escaped markup comes out as markup: [remove_html_tags("&lt;b&gt;")]
    is ["<b>"], and for every name free of ["<"], ["&"] and line
    breaks, the escaped tag around it comes out as the bare tag, a
    match of the tag pattern. *)
Theorem escaped_markup_survives :
  remove_html_tags (Some "&lt;b&gt;") = "<b>" ∧
  contains_tag "<b>" = true ∧
  ∀ name : string,
    mem_char LT name = false → mem_char AMP name = false →
    mem_char NL name = false →
    remove_html_tags (Some ("&lt;" ++ name ++ "&gt;")%string)
      = ("<" ++ name ++ ">")%string ∧
    contains_tag ("<" ++ name ++ ">")%string = true.
Proof.
  split_and!; [reflexivity|reflexivity|].
  intros name Hlt Hamp Hnl. split; [by apply remove_html_tags_escaped|].
  change ("<" ++ name ++ ">")%string with (String LT (name ++ String GT ""))%string.
  cbn [contains_tag]. by rewrite Ascii.eqb_refl, has_close_app_GT.
Qed.

Lemma escaped_markup_survives_witness :
  remove_html_tags (Some "&lt;script&gt;") = "<script>" ∧
  contains_tag "<script>" = true.
Proof.
  destruct escaped_markup_survives as (_ & _ & H).
  apply (H "script"); reflexivity.
Defined.

(** * Further properties of the code *)

(** ** [remove_html_tags] *)

Lemma occurs_no_amp (o t : string) :
  mem_char AMP t = false → PyStr.occurs (String AMP o) t = false.
Proof.
  induction t as [|c t IH]; intros H; [done|].
  simpl in H. apply orb_false_iff in H as [Hc H].
  rewrite occurs_cons, IH, orb_false_r by done.
  cbn [String.prefix]. destruct (ascii_dec AMP c) as [<-|]; [|done].
  by rewrite Ascii.eqb_refl in Hc.
Qed.

(** Text without ["<"] and without ["&"] is only trimmed. *)
Theorem remove_html_tags_plain_text (t : string) :
  mem_char LT t = false → mem_char AMP t = false →
  remove_html_tags (Some t) = PyStr.strip t.
Proof.
  intros Hlt Hamp. unfold remove_html_tags.
  rewrite sub_tags_id by done.
  rewrite !replace_char by done.
  rewrite (replace_go_id "&nbsp;") by (done || by apply (occurs_no_amp "nbsp;")).
  rewrite (replace_go_id "&lt;") by (done || by apply (occurs_no_amp "lt;")).
  by rewrite (replace_go_id "&gt;") by (done || by apply (occurs_no_amp "gt;")).
Qed.

Lemma remove_html_tags_plain_text_witness :
  remove_html_tags (Some "  lead 0.3 mg/kg (limit 0.1) ") =
  "lead 0.3 mg/kg (limit 0.1)".
Proof.
  rewrite remove_html_tags_plain_text; reflexivity.
Defined.

Lemma lstrip_no_leading_ws (s : string) : no_leading_ws (PyStr.lstrip s).
Proof.
  remember (String.length s) as n eqn:Hn.
  revert s Hn. induction (lt_wf n) as [n _ IH]. intros s ->.
  destruct s as [|a t1]; [done|]. cbn [PyStr.lstrip].
  destruct (PyStr.ws1 a) eqn:H1.
  { eapply IH; [|reflexivity]. simpl; lia. }
  destruct t1 as [|b t2]; [by simpl|].
  destruct (PyStr.ws2 a b) eqn:H2.
  { eapply IH; [|reflexivity]. simpl; lia. }
  destruct t2 as [|c t3]; [by simpl|].
  destruct (PyStr.ws3 a b c) eqn:H3; [|by simpl].
  eapply IH; [|reflexivity]. simpl; lia.
Qed.

Lemma no_leading_ws_lstrip (s : string) :
  no_leading_ws s → PyStr.lstrip s = s.
Proof.
  destruct s as [|a [|b [|c t3]]]; simpl; try done.
  - by intros [-> _].
  - by intros (-> & -> & _).
  - by intros (-> & -> & ->).
Qed.

Lemma rstrip_cons_inv (b : ascii) (t t' : string) :
  PyStr.rstrip t = String b t' → ∃ t2, t = String b t2 ∧ t' = PyStr.rstrip t2.
Proof.
  destruct t as [|a t2]; [done|]. cbn [PyStr.rstrip].
  destruct (PyStr.all_ws (String a t2)); [done|].
  intros [= -> <-]. eauto.
Qed.

Lemma no_leading_ws_rstrip (s : string) :
  no_leading_ws s → no_leading_ws (PyStr.rstrip s).
Proof.
  intros Hs. destruct (PyStr.rstrip s) as [|a u1] eqn:H1; [done|].
  apply rstrip_cons_inv in H1 as (t1 & -> & ->).
  destruct Hs as [Ha Hs]. split; [done|].
  destruct (PyStr.rstrip t1) as [|b u2] eqn:H2; [done|].
  apply rstrip_cons_inv in H2 as (t2 & -> & ->).
  destruct Hs as [Hb Hs]. split; [done|].
  destruct (PyStr.rstrip t2) as [|c u3] eqn:H3; [done|].
  by apply rstrip_cons_inv in H3 as (t3 & -> & ->).
Qed.

Lemma all_ws_app (x w : string) :
  PyStr.all_ws x = true → PyStr.all_ws w = true →
  PyStr.all_ws (x ++ w)%string = true.
Proof.
  intros Hx Hw. remember (String.length x) as n eqn:Hn.
  revert x Hn Hx. induction (lt_wf n) as [n _ IH]. intros x -> Hx.
  destruct x as [|a t1]; [done|].
  rewrite append_cons. cbn [PyStr.all_ws] in *.
  destruct (PyStr.ws1 a).
  { eapply IH; [|reflexivity|done]. simpl; lia. }
  destruct t1 as [|b t2]; [done|]. rewrite append_cons.
  destruct (PyStr.ws2 a b).
  { eapply IH; [|reflexivity|done]. simpl; lia. }
  destruct t2 as [|c t3]; [done|]. rewrite append_cons.
  apply andb_true_iff in Hx as [-> Hx]. simpl.
  eapply IH; [|reflexivity|done]. simpl; lia.
Qed.

(** What [rstrip] removes is whitespace. *)
Lemma rstrip_split (s : string) :
  ∃ w, s = (PyStr.rstrip s ++ w)%string ∧ PyStr.all_ws w = true.
Proof.
  induction s as [|a t (w & Ht & Hw)]; [by exists ""|].
  cbn [PyStr.rstrip]. destruct (PyStr.all_ws (String a t)) eqn:Hall.
  - by exists (String a t).
  - exists w. split; [|done]. rewrite append_cons. by f_equal.
Qed.

Lemma rstrip_idemp (s : string) :
  PyStr.rstrip (PyStr.rstrip s) = PyStr.rstrip s.
Proof.
  induction s as [|a t IH]; [done|]. cbn [PyStr.rstrip].
  destruct (PyStr.all_ws (String a t)) eqn:Hall; [done|].
  cbn [PyStr.rstrip]. rewrite IH.
  destruct (PyStr.all_ws (String a (PyStr.rstrip t))) eqn:Hall'; [|done].
  destruct (rstrip_split t) as (w & Ht & Hw).
  pose proof (all_ws_app _ _ Hall' Hw) as Happ.
  rewrite append_cons, <- Ht in Happ. congruence.
Qed.

Lemma strip_idemp (s : string) : PyStr.strip (PyStr.strip s) = PyStr.strip s.
Proof.
  unfold PyStr.strip.
  rewrite (no_leading_ws_lstrip (PyStr.rstrip _)).
  - apply rstrip_idemp.
  - apply no_leading_ws_rstrip, lstrip_no_leading_ws.
Qed.

(** The cleaned text is trimmed: stripping it again changes nothing,
    it begins with no whitespace and no whitespace is left at its
    end. *)
Theorem remove_html_tags_trimmed (text : cell) :
  PyStr.strip (remove_html_tags text) = remove_html_tags text ∧
  PyStr.lstrip (remove_html_tags text) = remove_html_tags text ∧
  PyStr.rstrip (remove_html_tags text) = remove_html_tags text.
Proof.
  destruct text as [raw|]; [|done]. unfold remove_html_tags.
  set (u := PyStr.replace _ _ _). split_and!.
  - apply strip_idemp.
  - apply no_leading_ws_lstrip. unfold PyStr.strip.
    apply no_leading_ws_rstrip, lstrip_no_leading_ws.
  - unfold PyStr.strip. apply rstrip_idemp.
Qed.

(** ** [re.sub('<.*?>', '', s)] *)

Lemma sub_tags_app_plain (pre s : string) :
  mem_char LT pre = false →
  sub_tags (pre ++ s)%string = (pre ++ sub_tags s)%string.
Proof.
  induction pre as [|c pre IH]; intros H; [done|].
  simpl in H. apply orb_false_iff in H as [Hc H].
  rewrite !append_cons. cbn [sub_tags]. rewrite Hc. simpl. by rewrite IH.
Qed.

Lemma has_close_app_close (a post : string) :
  mem_char NL a = false → has_close (a ++ String GT post)%string = true.
Proof.
  induction a as [|c a IH]; intros H; [done|].
  simpl in H. apply orb_false_iff in H as [Hc H]. rewrite append_cons. simpl.
  destruct (Ascii.eqb c GT); [done|]. rewrite Hc. auto.
Qed.

Lemma skip_tag_app_close (a post : string) :
  mem_char GT a = false →
  skip_tag (a ++ String GT post)%string = sub_tags post.
Proof.
  induction a as [|c a IH]; intros H; [done|].
  simpl in H. apply orb_false_iff in H as [Hc H]. rewrite append_cons.
  cbn [skip_tag]. rewrite Hc. auto.
Qed.

(** A tag closed on its own line is deleted and the text before it is
    kept: for [pre] free of ["<"] and [a] free of [">"] and of line
    breaks, [pre <a> post] becomes [pre] followed by what the
    substitution makes of [post]. *)
Theorem sub_tags_removes_tag (pre a post : string) :
  mem_char LT pre = false → mem_char GT a = false → mem_char NL a = false →
  sub_tags (pre ++ String LT (a ++ String GT post))%string =
  (pre ++ sub_tags post)%string.
Proof.
  intros Hpre Hgt Hnl. rewrite sub_tags_app_plain by done. f_equal.
  cbn [sub_tags]. rewrite ?Ascii.eqb_refl, has_close_app_close by done.
  simpl. by apply skip_tag_app_close.
Qed.

Lemma sub_tags_removes_tag_witness :
  sub_tags "Recall: <a href='x'>notice</a> issued" = "Recall: notice issued".
Proof.
  exact (sub_tags_removes_tag "Recall: " "a href='x'" "notice</a> issued"
           eq_refl eq_refl eq_refl).
Defined.

Lemma sub_tags_open_line (line rest : string) :
  mem_char GT line = false → mem_char NL line = false →
  has_close (line ++ String NL rest)%string = false ∧
  sub_tags (line ++ String NL rest)%string
    = (line ++ String NL (sub_tags rest))%string.
Proof.
  induction line as [|c line IH]; intros Hgt Hnl.
  { by split. }
  simpl in Hgt, Hnl.
  apply orb_false_iff in Hgt as [Hc Hgt]. apply orb_false_iff in Hnl as [Hc' Hnl].
  destruct (IH Hgt Hnl) as [IH1 IH2].
  rewrite !append_cons. split.
  - simpl. by rewrite Hc, Hc'.
  - cbn [sub_tags]. by rewrite IH1, andb_false_r, IH2.
Qed.

(** A ["<"] whose line has no [">"] after it is left in place with the
    rest of its line: the pattern does not match across a line break,
    so a tag that spans two lines is not removed. *)
Theorem sub_tags_keeps_open_bracket (line rest : string) :
  mem_char GT line = false → mem_char NL line = false →
  sub_tags (String LT (line ++ String NL rest))%string
    = String LT (line ++ String NL (sub_tags rest))%string.
Proof.
  intros Hgt Hnl. destruct (sub_tags_open_line line rest Hgt Hnl) as [Hc Hs].
  cbn [sub_tags]. by rewrite Hc, andb_false_r, Hs.
Qed.

Lemma sub_tags_keeps_open_bracket_witness :
  sub_tags (String LT ("p class='x'" ++ String NL "style='y'>text"))%string
  = String LT ("p class='x'" ++ String NL "style='y'>text")%string.
Proof.
  exact (sub_tags_keeps_open_bracket "p class='x'" "style='y'>text"
           eq_refl eq_refl).
Defined.

(** ** [fetch_food_data]: what is gathered *)

Lemma fetch_len
    (remote : params → response) (API_KEY : string) (start_date end_date : date) :
  len (frame (fetch_food_data remote API_KEY start_date end_date)) =
  length (collected remote API_KEY start_date end_date).
Proof.
  destruct (fetch_cases remote API_KEY start_date end_date)
    as [(_ & -> & ->)|[(_ & _ & Hn)|(e & _ & ->)]].
  - done.
  - by apply normalize_len.
  - unfold len, from_records. simpl. by rewrite length_map.
Qed.

(** The loop of an invocation in full: [k] pages with items, gathered
    in page order, then an exception, a response without items, or the
    end of the five rounds. *)
Lemma pagination_result
    (remote : params → response) (API_KEY : string) (start_date end_date : date) :
  let win := window API_KEY (strftime_Ymd start_date) (strftime_Ymd end_date) in
  ∃ (k : nat) (got : list (list item)),
    k ≤ 5 ∧
    Forall2 (λ i l, has_items (remote (win i)) l) (seq 0 k) got ∧
    (pagination remote API_KEY start_date end_date).2 =
      mkState (concat got) (map win (seq 0 (S k `min` 5))) ∧
    (k = 5 ∧ (pagination remote API_KEY start_date end_date).1 = None ∨
     k < 5 ∧ no_items (remote (win k)) ∧
       (pagination remote API_KEY start_date end_date).1 = None ∨
     k < 5 ∧ ∃ msg, remote (win k) = Raises msg ∧
       (pagination remote API_KEY start_date end_date).1
         = Some (RequestError msg)).
Proof.
  intros win. unfold pagination.
  destruct (paginate_run remote API_KEY (strftime_Ymd start_date)
              (strftime_Ymd end_date) (seq 0 5) (mkState [] []))
    as (k & got & Hk & Hgot & Hrun).
  fold win in Hgot, Hrun. rewrite length_seq in Hk.
  cbn [all_data sent app] in Hrun.
  rewrite take_seq in Hgot, Hrun.
  replace (k `min` 5) with k in Hgot by lia.
  exists k, got. split_and!; [done|done| |].
  - destruct (seq 0 5 !! k) as [i|]; [|by rewrite Hrun].
    by destruct Hrun as [(msg & _ & ->)|(_ & ->)].
  - destruct (seq 0 5 !! k) as [i|] eqn:Hi.
    + apply lookup_seq in Hi as [Heq Hlt]. simpl in Heq. subst i.
      destruct Hrun as [(msg & Hr & ->)|(Hr & ->)].
      * right. right. eauto.
      * right. left. eauto.
    + apply lookup_ge_None in Hi. rewrite length_seq in Hi.
      left. split; [lia|]. by rewrite Hrun.
Qed.


Lemma concat_length_bound (n : nat) (ls : list (list item)) :
  Forall (λ l : list item, length l ≤ n) ls →
  length (concat ls) ≤ n * length ls.
Proof.
  induction 1 as [|l ls Hl Hall IH]; cbn [concat length]; [lia|].
  rewrite length_app, Nat.mul_succ_r. lia.
Qed.

(** When no response carries more than 100 items, the frame has at most
    500 rows. *)
Theorem fetch_at_most_500_rows
    (remote : params → response) (API_KEY : string) (start_date end_date : date) :
  (∀ p l, remote p = Json (Some l) → length l ≤ 100) →
  len (frame (fetch_food_data remote API_KEY start_date end_date)) ≤ 500.
Proof.
  intros Hsize. rewrite fetch_len.
  destruct (pagination_result remote API_KEY start_date end_date)
    as (k & got & Hk & Hgot & Hst & _).
  unfold collected. rewrite Hst. cbn [all_data].
  assert (length got = k) as Hlen.
  { apply Forall2_length in Hgot. by rewrite length_seq in Hgot. }
  assert (Forall (λ l : list item, length l ≤ 100) got) as Hall.
  { eapply Forall2_Forall_r; [exact Hgot|].
    apply Forall_forall. intros i _ l [Hr _]. by eapply Hsize. }
  pose proof (concat_length_bound _ _ Hall) as Hbound. lia.
Qed.

Lemma fetch_at_most_500_rows_witness :
  len (frame (fetch_food_data three_full_pages "key" sample_start sample_end))
  ≤ 500.
Proof.
  apply fetch_at_most_500_rows. intros p l. unfold three_full_pages.
  destruct (startIndex p <? 301); intros [= <-]; simpl; lia.
Defined.

(** When the first response has no items there is that one call, no
    message, and the frame returned has no columns and no rows. *)
Theorem fetch_nothing_found
    (remote : params → response) (API_KEY : string) (start_date end_date : date) :
  let win := window API_KEY (strftime_Ymd start_date) (strftime_Ymd end_date) in
  let out := fetch_food_data remote API_KEY start_date end_date in
  no_items (remote (win 0)) →
  requests out = [win 0] ∧ errors out = [] ∧
  frame out = empty_frame ∧ empty (frame out) = true.
Proof.
  intros win out Hno.
  pose proof (pagination_stopped remote API_KEY start_date end_date
                (λ _, []) 0 ltac:(lia) ltac:(intros; lia) Hno) as Hrun.
  unfold out. rewrite fetch_unfold, Hrun. by cbn.
Qed.

Lemma fetch_nothing_found_witness :
  let out := fetch_food_data (λ _, Json None) "key" sample_start sample_end in
  length (requests out) = 1 ∧ errors out = [] ∧ frame out = empty_frame.
Proof.
  destruct (fetch_nothing_found (λ _, Json None) "key" sample_start sample_end)
    as (Hreq & Herr & Hframe & _).
  - by left.
  - intros out. subst out. rewrite Hreq. by split.
Defined.

(** ** [fetch_food_data]: when normalisation cannot run *)

Lemma rename_target_source (c l : string) :
  default c (RENAME_COLUMNS !! c) = l →
  c = l ∧ RENAME_COLUMNS !! c = None ∨ RENAME_COLUMNS !! c = Some l.
Proof.
  destruct (RENAME_COLUMNS !! c) as [v|]; simpl; intros <-; auto.
Qed.

Lemma RENAME_COLUMNS_pairs (old new : string) :
  RENAME_COLUMNS !! old = Some new →
  (old, new) ∈ [("TITLE", "제품명"); ("COUNTRY", "국가"); ("INFO_TYPE", "구분");
                ("CONTENT", "상세내용"); ("REGISTRATION_DATE", "등록일");
                ("ORIGINAL_URL", "원문링크")].
Proof. unfold RENAME_COLUMNS. apply elem_of_list_to_map_2. Qed.

Lemma elem_of_from_records_columns (data : list item) (c : string) :
  c ∈ columns (from_records data) → ∃ it, it ∈ data ∧ c ∈ it.*1.
Proof.
  simpl. intros Hc. apply (proj1 (elem_of_uniq _ _)) in Hc.
  apply list_elem_of_In, in_concat in Hc as (keys & Hkeys & Hc).
  apply list_elem_of_In in Hkeys, Hc.
  apply list_elem_of_fmap in Hkeys as (it & -> & Hit). eauto.
Qed.

(** Without a date under either name in any item, sorting raises. *)
Lemma normalize_without_date (data : list item) :
  (∀ it, it ∈ data → ("REGISTRATION_DATE" ∉ it.*1) ∧ ("등록일" ∉ it.*1)) →
  normalize data = inl (KeyError "등록일").
Proof.
  intros Hkeys. unfold normalize, sort_values_desc, loc.
  rewrite (positions_from_absent 0 "등록일"); [done|].
  cbn [rename columns]. intros Hin.
  apply list_elem_of_fmap in Hin as (c & Hc & Hin).
  apply elem_of_from_records_columns in Hin as (it & Hit & Hcit).
  destruct (Hkeys it Hit) as [Hraw Hnew].
  symmetry in Hc. apply rename_target_source in Hc as [[-> _]|Hc]; [done|].
  apply RENAME_COLUMNS_pairs in Hc.
  rewrite !elem_of_cons, elem_of_nil in Hc.
  repeat (destruct Hc as [Hc|Hc]; [(by injection Hc as ->) || discriminate|]).
  done.
Qed.

Lemma fetch_normalize_failure
    (remote : params → response) (API_KEY : string) (start_date end_date : date)
    (e : exn) :
  let out := fetch_food_data remote API_KEY start_date end_date in
  (pagination remote API_KEY start_date end_date).1 = None →
  collected remote API_KEY start_date end_date ≠ [] →
  normalize (collected remote API_KEY start_date end_date) = inl e →
  errors out = [e] ∧
  frame out = from_records (collected remote API_KEY start_date end_date).
Proof.
  intros out Hnone Hne Hn. unfold out, collected in *.
  rewrite fetch_unfold. cbv zeta. rewrite Hnone.
  destruct (all_data _) as [|it l] eqn:Hdata; [done|].
  rewrite Hn. by rewrite on_exception_frame, Hdata.
Qed.

(** When no call raises, the first page has items and no item carries a
    date (neither [REGISTRATION_DATE] nor [등록일]), the sort of line 101
    raises [KeyError]: it is reported, and the frame returned is the
    one built from the gathered items, without any renaming. *)
Theorem fetch_without_date_field
    (remote : params → response) (API_KEY : string) (start_date end_date : date)
    (first : list item) :
  let win := window API_KEY (strftime_Ymd start_date) (strftime_Ymd end_date) in
  let out := fetch_food_data remote API_KEY start_date end_date in
  let gathered := collected remote API_KEY start_date end_date in
  (∀ p msg, remote p ≠ Raises msg) →
  has_items (remote (win 0)) first →
  (∀ p l it, remote p = Json (Some l) → it ∈ l →
             ("REGISTRATION_DATE" ∉ it.*1) ∧ ("등록일" ∉ it.*1)) →
  errors out = [KeyError "등록일"] ∧
  frame out = from_records gathered ∧
  gathered ≠ [] ∧
  has_column (frame out) "등록일" = false.
Proof.
  intros win out gathered Hnoraise Hfirst Hkeys.
  destruct (pagination_result remote API_KEY start_date end_date)
    as (k & got & Hk & Hgot & Hst & Hend).
  fold win in Hgot, Hend.
  assert ((pagination remote API_KEY start_date end_date).1 = None) as Hnone.
  { destruct Hend as [[_ ?]|[(_ & _ & ?)|(_ & msg & Hr & _)]]; [done..|].
    by destruct (Hnoraise _ _ Hr). }
  assert (gathered = concat got) as Hg.
  { unfold gathered, collected. by rewrite Hst. }
  assert (gathered ≠ []) as Hne.
  { rewrite Hg. destruct k as [|k].
    - destruct Hfirst as [Hr0 Hne0].
      destruct Hend as [[? _]|[(_ & [Hr|Hr] & _)|(_ & msg & Hr & _)]];
        [lia|congruence..].
    - rewrite <- cons_seq in Hgot.
      apply Forall2_cons_inv_l in Hgot as (l & got' & [_ Hl] & _ & ->).
      simpl. by intros [? _]%app_eq_nil. }
  assert (∀ it, it ∈ gathered →
                ("REGISTRATION_DATE" ∉ it.*1) ∧ ("등록일" ∉ it.*1)) as Hall.
  { intros it Hit. rewrite Hg in Hit.
    apply list_elem_of_In, in_concat in Hit as (l & Hl & Hit).
    apply list_elem_of_In in Hl, Hit.
    apply list_elem_of_lookup in Hl as (i & Hi).
    destruct (Forall2_lookup_r _ _ _ _ _ Hgot Hi) as (j & _ & Hr & _).
    by eapply Hkeys. }
  pose proof (normalize_without_date _ Hall) as Hn.
  destruct (fetch_normalize_failure remote API_KEY start_date end_date _
              Hnone Hne Hn) as [Herr Hframe].
  fold out gathered in Herr, Hframe.
  split_and!; [done|done|done|].
  rewrite Hframe. unfold has_column.
  rewrite (positions_from_absent 0 "등록일"); [done|].
  intros (it & Hit & Hc)%elem_of_from_records_columns.
  by destruct (Hall it Hit).
Qed.

Lemma fetch_without_date_field_witness :
  let remote := λ p : params,
    match startIndex p with
    | 1 => Json (Some [[("TITLE", Some "dried mango"); ("COUNTRY", Some "태국")]])
    | _ => Json None
    end in
  let out := fetch_food_data remote "key" sample_start sample_end in
  errors out = [KeyError "등록일"] ∧ columns (frame out) = ["TITLE"; "COUNTRY"].
Proof.
  intros remote out.
  destruct (fetch_without_date_field remote "key" sample_start sample_end
              [[("TITLE", Some "dried mango"); ("COUNTRY", Some "태국")]])
    as (Herr & Hframe & _).
  - intros p msg. unfold remote. by destruct (startIndex p) as [|[|?]].
  - by split.
  - intros p l it. unfold remote.
    destruct (startIndex p) as [|[|?]]; intros [= <-].
    intros ->%list_elem_of_singleton. split; vm_compute;
      intros H; repeat (apply elem_of_cons in H as [H|H]; [discriminate|]);
      by apply elem_of_nil in H.
  - split; [exact Herr|]. unfold out. rewrite Hframe. reflexivity.
Defined.

(** ** [fetch_food_data]: the frame returned *)

Lemma normalize_shape (data : list item) (df : DataFrame) :
  normalize data = inr df → well_shaped df.
Proof.
  intros Hn. destruct (normalize_rows _ _ Hn)
    as (id & ik & je & g & _ & _ & _ & _ & _ & _ & Hrows & Hg).
  unfold well_shaped. rewrite Hrows. apply Forall_forall.
  intros r (r0 & -> & Hr0)%list_elem_of_fmap.
  pose proof (sort_desc_shape _ (value_at id) (raw_shape data)) as Hshape.
  rewrite Forall_forall in Hshape. by destruct (Hg r0 (Hshape r0 Hr0)).
Qed.

(** Whichever way an invocation ends, every row of the frame has
    exactly one cell per column. *)
Theorem fetch_frame_well_shaped
    (remote : params → response) (API_KEY : string) (start_date end_date : date) :
  well_shaped (frame (fetch_food_data remote API_KEY start_date end_date)).
Proof.
  destruct (fetch_cases remote API_KEY start_date end_date)
    as [(_ & _ & ->)|[(_ & _ & Hn)|(e & _ & ->)]].
  - constructor.
  - by eapply normalize_shape.
  - apply from_records_shape.
Qed.

Lemma not_has_column (df : DataFrame) (label : string) :
  (∀ i, columns df !! i ≠ Some label) → has_column df label = false.
Proof.
  intros H. unfold has_column.
  destruct (positions label (columns df)) as [|i ps] eqn:Hps; [done|].
  destruct (H i). apply elem_of_positions. rewrite Hps. apply list_elem_of_here.
Qed.

Lemma normalize_drops_raw_names (data : list item) (df : DataFrame)
    (old new : string) :
  normalize data = inr df → RENAME_COLUMNS !! old = Some new →
  has_column df old = false.
Proof.
  intros Hn Hold. destruct (normalize_rows _ _ Hn)
    as (id & ik & je & g & _ & _ & _ & _ & _ & Hcols & _).
  apply not_has_column. intros i Hi.
  apply Hcols in Hi.
  2:{ intros ->. by vm_compute in Hold. }
  cbn [rename columns] in Hi. change (map ?f ?l) with (f <$> l) in Hi.
  apply list_lookup_fmap_Some in Hi as (c & Hc & _).
  symmetry in Hc. apply rename_target_source in Hc as [[-> Hc]|Hc]; [congruence|].
  apply RENAME_COLUMNS_pairs in Hc, Hold.
  rewrite !elem_of_cons, elem_of_nil in Hc, Hold.
  repeat (destruct Hold as [Hold|Hold];
          [injection Hold as -> ->;
           repeat (destruct Hc as [Hc|Hc]; [discriminate|]); done|]).
  done.
Qed.

(** After a fetch that reported nothing, no column bears one of the six
    API names any more; and if the frame has a row, it has exactly one
    column [등록일], one [국가] and one [Country_EN]. *)
Theorem fetch_success_columns
    (remote : params → response) (API_KEY : string) (start_date end_date : date) :
  let out := fetch_food_data remote API_KEY start_date end_date in
  errors out = [] →
  (∀ old new, RENAME_COLUMNS !! old = Some new →
              has_column (frame out) old = false) ∧
  (rows (frame out) ≠ [] →
   ∃ id ik je, loc (frame out) "등록일" = inr id ∧
               loc (frame out) "국가" = inr ik ∧
               loc (frame out) "Country_EN" = inr je).
Proof.
  intros out Herr. subst out.
  destruct (fetch_cases remote API_KEY start_date end_date)
    as [(_ & _ & Hf)|[(_ & _ & Hn)|(e & He & _)]]; [| |congruence].
  - rewrite Hf. by split.
  - split.
    + intros old new Hold. by eapply normalize_drops_raw_names.
    + intros _. destruct (normalize_rows _ _ Hn)
        as (id & ik & je & g & _ & Hid & _ & Hik & Hje & _).
      by exists id, ik, je.
Qed.

Lemma fetch_success_columns_witness :
  let out := fetch_food_data mixed_notices "key" sample_start sample_end in
  has_column (frame out) "TITLE" = false ∧
  ∃ id ik je, loc (frame out) "등록일" = inr id ∧
              loc (frame out) "국가" = inr ik ∧
              loc (frame out) "Country_EN" = inr je.
Proof.
  intros out.
  destruct (fetch_success_columns mixed_notices "key" sample_start sample_end)
    as [Hraw Hloc]; [reflexivity|].
  split.
  - apply (Hraw "TITLE" "제품명"). by vm_compute.
  - apply Hloc. by vm_compute.
Defined.

(** Normalisation neither drops nor repeats a record: under every
    column other than the detail text and [Country_EN], the cells of
    the frame are the values the gathered items had under that
    column's raw key, each as often as it was received. *)
Theorem fetch_success_keeps_records
    (remote : params → response) (API_KEY : string) (start_date end_date : date)
    (i : nat) (label : string) :
  let out := fetch_food_data remote API_KEY start_date end_date in
  let gathered := collected remote API_KEY start_date end_date in
  errors out = [] →
  columns (frame out) !! i = Some label →
  label ≠ "상세내용" → label ≠ "Country_EN" →
  ∃ key, columns (from_records gathered) !! i = Some key ∧
         label = default key (RENAME_COLUMNS !! key) ∧
         map (value_at i) (rows (frame out))
           ≡ₚ map (λ it, item_get it key) gathered.
Proof.
  intros out gathered Herr Hi Hl1 Hl2. subst out gathered.
  destruct (fetch_cases remote API_KEY start_date end_date)
    as [(_ & _ & Hf)|[(_ & _ & Hn)|(e & He & _)]]; [| |congruence].
  { by rewrite Hf in Hi. }
  set (data := collected remote API_KEY start_date end_date) in *.
  destruct (normalize_rows _ _ Hn)
    as (id & ik & je & g & _ & _ & _ & _ & _ & Hcols & Hrows & Hg).
  pose proof (Hcols i label Hi Hl2) as Hraw.
  cbn [rename columns] in Hraw. change (map ?f ?l) with (f <$> l) in Hraw.
  apply list_lookup_fmap_Some in Hraw as (key & Hren & Hkey).
  change (columns (from_records data) !! i = Some key) in Hkey.
  exists key. split_and!; [done|done|].
  rewrite Hrows.
  pose proof (sort_desc_shape _ (value_at id) (raw_shape data)) as Hshape.
  rewrite map_map.
  assert (Forall (λ r0, value_at i (g r0) = value_at i r0)
            (sort_desc (value_at id)
               (rows (rename RENAME_COLUMNS (from_records data))))) as Hsame.
  { eapply Forall_impl; [exact Hshape|]. intros r0 Hr0. simpl.
    destruct (Hg r0 Hr0) as (_ & _ & _ & Hother). by eapply Hother. }
  rewrite (map_ext_Forall _ _ Hsame).
  change (map ?f ?l) with (f <$> l).
  rewrite (sort_desc_perm (value_at id)). cbn [rename rows from_records].
  change (map ?f ?l) with (f <$> l). rewrite <- list_fmap_compose.
  rewrite (list_fmap_ext _ (λ it, item_get it key) data); [done|].
  intros _ it _. simpl.
  unfold value_at. change (map ?f ?l) with (f <$> l).
  rewrite list_lookup_fmap.
  change (uniq _) with (columns (from_records data)). by rewrite Hkey.
Qed.

Lemma fetch_success_keeps_records_witness :
  let out := fetch_food_data mixed_notices "key" sample_start sample_end in
  map (value_at 0) (rows (frame out))
    ≡ₚ [Some "herbal tea"; Some "dried mango"; Some "soy sauce"].
Proof.
  intros out.
  destruct (fetch_success_keeps_records mixed_notices "key"
              sample_start sample_end 0 "제품명")
    as (key & Hkey & _ & Hperm); try done.
  vm_compute in Hkey. injection Hkey as <-.
  exact Hperm.
Defined.

Lemma country_en_missing (c : cell) : country_en c = None ↔ c = None.
Proof.
  destruct c as [k|]; [|done]. unfold country_en, map_dict.
  by destruct (COUNTRY_MAPPING !! k).
Qed.

(** In a frame fetched without an exception, [Country_EN] is missing
    in exactly the rows where [국가] is missing: a country is never
    dropped, with or without an entry in the table. *)
Theorem country_en_missing_iff
    (remote : params → response) (API_KEY : string) (start_date end_date : date)
    (r : row) :
  let out := fetch_food_data remote API_KEY start_date end_date in
  errors out = [] → r ∈ rows (frame out) →
  ∃ ik je, loc (frame out) "국가" = inr ik ∧
           loc (frame out) "Country_EN" = inr je ∧
           (value_at je r = None ↔ value_at ik r = None).
Proof.
  intros out Herr Hr.
  pose proof (fetch_normalized remote API_KEY start_date end_date r Herr Hr)
    as Hn.
  destruct (normalize_country _ _ _ Hn Hr) as (ik & je & Hik & Hje & Hval).
  exists ik, je. split_and!; [done|done|].
  rewrite Hval. apply country_en_missing.
Qed.

Lemma country_en_missing_iff_witness :
  let out := fetch_food_data mixed_notices "key" sample_start sample_end in
  let r := [Some "herbal tea"; Some "Atlantis"; Some "정보"; Some "";
            Some "20241120"; None; Some "Atlantis"] in
  ∃ ik je, loc (frame out) "국가" = inr ik ∧
           loc (frame out) "Country_EN" = inr je ∧
           (value_at je r = None ↔ value_at ik r = None).
Proof.
  intros out r.
  apply (country_en_missing_iff mixed_notices "key" sample_start sample_end r).
  - reflexivity.
  - vm_compute. apply list_elem_of_further, list_elem_of_here.
Defined.

(** In a frame fetched without an exception the rows are in descending
    order of [등록일], and a row without a date is followed only by
    rows without a date. *)
Theorem fetch_success_sorted
    (remote : params → response) (API_KEY : string) (start_date end_date : date) :
  let out := fetch_food_data remote API_KEY start_date end_date in
  errors out = [] →
  sorted_desc_by "등록일" (frame out) ∧
  ∀ id before r after r',
    loc (frame out) "등록일" = inr id →
    rows (frame out) = before ++ r :: after → r' ∈ after →
    (value_at id r = None → value_at id r' = None) ∧
    (∀ x y, value_at id r' = Some x → value_at id r = Some y →
            String.leb x y = true).
Proof.
  intros out Herr.
  pose proof (fetch_sorted_without_exception remote API_KEY
                start_date end_date Herr) as Hs.
  fold out in Hs. split; [done|].
  intros id before r after r' Hid Hrows Hr'.
  destruct Hs as [Hnil|(id' & Hid' & Hs)].
  { rewrite Hnil in Hrows. by destruct before. }
  assert (id' = id) as -> by congruence.
  rewrite Hrows in Hs. apply StronglySorted_app_1_r in Hs.
  apply StronglySorted_cons in Hs as [Hall _].
  rewrite Forall_forall in Hall. specialize (Hall r' Hr').
  unfold desc in Hall.
  destruct (value_at id r') as [x|], (value_at id r) as [y|]; simpl in *;
    try done.
  split; [done|]. by intros ? ? [= <-] [= <-].
Qed.

Lemma fetch_success_sorted_witness :
  let out := fetch_food_data mixed_notices "key" sample_start sample_end in
  map (value_at 4) (rows (frame out))
    = [Some "20241218"; Some "20241120"; Some "20241105"] ∧
  sorted_desc_by "등록일" (frame out).
Proof.
  intros out.
  destruct (fetch_success_sorted mixed_notices "key" sample_start sample_end)
    as [Hs _]; [reflexivity|].
  split; [reflexivity|exact Hs].
Defined.

(** ** The first tab on a frame returned after an exception *)

(** When a call raises after at least one page of API records, the
    frame returned has rows, so the page does not stop at the check of
    line 141, and it has no column [구분]: reading the options of the
    first filter raises [KeyError], and so does the filter itself. *)
Theorem partial_frame_breaks_first_tab
    (remote : params → response) (API_KEY : string) (start_date end_date : date)
    (page : nat → list item) (k : nat) (msg : string)
    (filter_type filter_country : list cell) :
  let win := window API_KEY (strftime_Ymd start_date) (strftime_Ymd end_date) in
  let out := fetch_food_data remote API_KEY start_date end_date in
  0 < k < 5 →
  (∀ i, i < k → has_items (remote (win i)) (page i)) →
  (∀ i, i < k → Forall api_record (page i)) →
  remote (win k) = Raises msg →
  empty (frame out) = false ∧
  unique_values (frame out) "구분" = inl (KeyError "구분") ∧
  filtered_df (frame out) filter_type filter_country = inl (KeyError "구분").
Proof.
  intros win out [Hk0 Hk] Hfull Hapi Hr.
  destruct (fetch_after_exception remote API_KEY start_date end_date
              page k msg Hk Hfull Hr) as (_ & _ & Hframe).
  fold out in Hframe.
  set (gathered := concat (map page (seq 0 k))) in *.
  assert (gathered ≠ []) as Hne.
  { unfold gathered. destruct k as [|k]; [lia|].
    destruct (Hfull 0) as [_ Hp]; [lia|].
    rewrite <- cons_seq. simpl. intros [? _]%app_eq_nil. done. }
  assert (Forall api_record gathered) as Hall.
  { unfold gathered. apply Forall_forall. intros it Hit.
    apply list_elem_of_In, in_concat in Hit as (l & Hl & Hit).
    apply list_elem_of_In in Hl, Hit.
    apply list_elem_of_fmap in Hl as (i & -> & Hi%elem_of_seq).
    pose proof (Hapi i ltac:(lia)) as Hpage.
    rewrite Forall_forall in Hpage. auto. }
  rewrite Hframe, from_records_api by done.
  split_and!; [|done|done].
  unfold empty. cbn [columns rows API_FIELDS].
  by destruct gathered.
Qed.

Lemma partial_frame_breaks_first_tab_witness :
  let out := fetch_food_data failing_second_call "key" sample_start sample_end in
  empty (frame out) = false ∧
  unique_values (frame out) "구분" = inl (KeyError "구분") ∧
  filtered_df (frame out) [Some "회수"] [Some "일본"] = inl (KeyError "구분").
Proof.
  apply (partial_frame_breaks_first_tab failing_second_call "key"
           sample_start sample_end (λ _, [older_notice; newer_notice]) 1
           "503 Server Error").
  - lia.
  - intros i Hi. assert (i = 0) as -> by lia. split; [reflexivity|discriminate].
  - intros i _. by repeat constructor.
  - reflexivity.
Defined.

(** ** The filters of the first tab *)

Lemma elem_of_uniq_cells (x : cell) (l : list cell) : x ∈ uniq l ↔ x ∈ l.
Proof.
  induction l as [|y l IH]; simpl; [done|].
  rewrite !elem_of_cons, list_elem_of_filter, IH.
  destruct (decide (x = y)); tauto.
Qed.


Lemma filter_keeps_all (p : row → bool) (l : list row) :
  (∀ r, r ∈ l → p r = true) → List.filter p l = l.
Proof.
  induction l as [|r l IH]; intros Hl; simpl; [done|].
  rewrite (Hl r) by apply list_elem_of_here.
  f_equal. apply IH. intros r' Hr'. by apply Hl, list_elem_of_further.
Qed.

Lemma filter_sublist_mono (p q : row → bool) (l : list row) :
  (∀ r, p r = true → q r = true) → List.filter p l `sublist_of` List.filter q l.
Proof.
  intros Hpq. induction l as [|r l IH]; simpl; [done|].
  destruct (p r) eqn:Hp.
  - rewrite (Hpq r Hp). by apply sublist_skip.
  - destruct (q r); [by apply sublist_cons|done].
Qed.

Lemma filter_sublist (p : row → bool) (l : list row) :
  List.filter p l `sublist_of` l.
Proof.
  induction l as [|r l IH]; simpl; [done|].
  destruct (p r); [by apply sublist_skip|by apply sublist_cons].
Qed.

Lemma elem_of_list_filter (p : row → bool) (l : list row) (r : row) :
  r ∈ List.filter p l ↔ r ∈ l ∧ p r = true.
Proof. by rewrite !list_elem_of_In, filter_In. Qed.

Lemma isin_true (values : list cell) (c : cell) :
  isin values c = true ↔ c ∈ values.
Proof. unfold isin. apply bool_decide_eq_true. Qed.

Lemma unique_values_inv (df : DataFrame) (label : string) (vs : list cell) :
  unique_values df label = inr vs →
  ∃ i, loc df label = inr i ∧ vs = uniq (map (value_at i) (rows df)).
Proof.
  unfold unique_values, get_column. destruct (loc df label) as [|i]; [done|].
  intros [= <-]. eauto.
Qed.

(** With the selections the two multiselects start from, every option
    of each column, the filter of lines 160-163 returns the frame
    unchanged: a row whose type or country is missing is kept too. *)
Theorem default_filters_keep_frame
    (df : DataFrame) (types countries : list cell) :
  unique_values df "구분" = inr types →
  unique_values df "국가" = inr countries →
  filtered_df df types countries = inr df.
Proof.
  intros (i & Hi & ->)%unique_values_inv (j & Hj & ->)%unique_values_inv.
  unfold filtered_df. rewrite Hi, Hj. cbn [bind]. unfold ret, select.
  rewrite filter_keeps_all; [by destruct df|].
  intros r Hr. apply andb_true_iff.
  split; apply isin_true, elem_of_uniq_cells, list_elem_of_fmap; eauto.
Qed.

Lemma default_filters_keep_frame_witness :
  let df := frame (fetch_food_data origin_unknown_api "key"
                     sample_start sample_end) in
  filtered_df df [Some "회수"] [Some "일본"; None; Some "태국"] = inr df.
Proof.
  intros df.
  apply (default_filters_keep_frame df); reflexivity.
Defined.

(** Widening either selection never hides a row: the rows shown under
    the narrower selections are among those shown under the wider
    ones, in the same order, and with nothing selected in one of the
    boxes no row is shown. *)
Theorem filters_are_monotone
    (df narrow wide : DataFrame)
    (types types' countries countries' : list cell) :
  types ⊆ types' → countries ⊆ countries' →
  filtered_df df types countries = inr narrow →
  filtered_df df types' countries' = inr wide →
  columns narrow = columns wide ∧
  rows narrow `sublist_of` rows wide ∧
  rows wide `sublist_of` rows df ∧
  (types = [] ∨ countries = [] → rows narrow = []).
Proof.
  intros Ht Hc (i & j & Hi & Hj & ->)%filtered_df_inv
               (i' & j' & Hi' & Hj' & ->)%filtered_df_inv.
  assert (i' = i) as -> by congruence. assert (j' = j) as -> by congruence.
  cbn [select columns rows]. split_and!; [done| | |].
  - apply filter_sublist_mono. intros r [H1 H2]%andb_true_iff.
    apply isin_true in H1, H2. apply andb_true_iff.
    split; apply isin_true; auto.
  - apply filter_sublist.
  - intros Hnil.
    destruct (List.filter _ (rows df)) as [|r l] eqn:Hf; [done|].
    assert (r ∈ List.filter
              (λ r, isin types (value_at i r) && isin countries (value_at j r))
              (rows df)) as Hr by (rewrite Hf; apply list_elem_of_here).
    apply elem_of_list_filter in Hr as [_ [H1 H2]%andb_true_iff].
    apply isin_true in H1, H2.
    destruct Hnil as [-> | ->]; by apply elem_of_nil in H1 || apply elem_of_nil in H2.
Qed.

Lemma filters_are_monotone_witness :
  let df := frame (fetch_food_data origin_unknown_api "key"
                     sample_start sample_end) in
  ∃ narrow wide,
    filtered_df df [Some "회수"] [Some "일본"] = inr narrow ∧
    filtered_df df [Some "회수"] [Some "일본"; None] = inr wide ∧
    len narrow = 1 ∧ len wide = 2 ∧
    rows narrow `sublist_of` rows wide.
Proof.
  intros df.
  destruct (filtered_df df [Some "회수"] [Some "일본"]) as [|narrow] eqn:Hn;
    [by vm_compute in Hn|].
  destruct (filtered_df df [Some "회수"] [Some "일본"; None]) as [|wide] eqn:Hw;
    [by vm_compute in Hw|].
  exists narrow, wide.
  destruct (filters_are_monotone df narrow wide
              [Some "회수"] [Some "회수"] [Some "일본"] [Some "일본"; None])
    as (_ & Hsub & _); [done| |exact Hn|exact Hw|].
  { intros c [->|[]%elem_of_nil]%elem_of_cons. apply list_elem_of_here. }
  vm_compute in Hn, Hw. injection Hn as <-. injection Hw as <-.
  split_and!; [reflexivity..|exact Hsub].
Defined.

(** The list of the first tab after a fetch without an exception:
    whatever is selected, the filter does not raise when the frame has
    a column [구분], and the rows it keeps are in descending order of
    [등록일], one cell per column. *)
Theorem filtered_fetch_is_sorted
    (remote : params → response) (API_KEY : string) (start_date end_date : date)
    (filter_type filter_country : list cell) (fdf : DataFrame) :
  let out := fetch_food_data remote API_KEY start_date end_date in
  errors out = [] →
  filtered_df (frame out) filter_type filter_country = inr fdf →
  sorted_desc_by "등록일" fdf ∧ well_shaped fdf ∧ len fdf ≤ len (frame out).
Proof.
  intros out Herr (i & j & Hi & Hj & ->)%filtered_df_inv.
  pose proof (fetch_sorted_without_exception remote API_KEY
                start_date end_date Herr) as Hs.
  fold out in Hs. split_and!.
  - destruct Hs as [Hnil|(id & Hid & Hs)]; [left|right].
    + cbn [select rows]. by rewrite Hnil.
    + exists id. split; [done|].
      by apply sorted_filter.
  - assert (well_shaped (frame out)) as Hshape.
    { unfold out.
      destruct (fetch_cases remote API_KEY start_date end_date)
        as [(_ & _ & ->)|[(_ & _ & Hn)|(e & _ & ->)]].
      - constructor.
      - by eapply normalize_shape.
      - apply from_records_shape. }
    unfold well_shaped in *. cbn [select rows columns].
    rewrite Forall_forall in *. intros r [Hr _]%elem_of_list_filter. auto.
  - unfold len. cbn [select rows]. apply sublist_length, filter_sublist.
Qed.

Lemma filtered_fetch_is_sorted_witness :
  let out := fetch_food_data origin_unknown_api "key" sample_start sample_end in
  ∃ fdf, filtered_df (frame out) [Some "회수"] [None; Some "태국"] = inr fdf ∧
         map (value_at 4) (rows fdf) = [Some "20241201"; Some "20241105"] ∧
         sorted_desc_by "등록일" fdf.
Proof.
  intros out.
  destruct (filtered_df (frame out) [Some "회수"] [None; Some "태국"])
    as [|fdf] eqn:Hf; [by vm_compute in Hf|].
  exists fdf.
  destruct (filtered_fetch_is_sorted origin_unknown_api "key"
              sample_start sample_end _ _ fdf eq_refl Hf) as (Hs & _ & _).
  vm_compute in Hf. injection Hf as <-.
  split_and!; [reflexivity..|exact Hs].
Defined.

(** ** The country summary of the second tab *)

Lemma eq_cell_true (c v : cell) :
  eq_cell c v = true ↔ ∃ s, c = Some s ∧ v = Some s.
Proof.
  destruct c as [a|], v as [b|]; simpl;
    try (split; [done|by intros (? & ? & ?)]).
  rewrite String.eqb_eq. split; [intros ->; eauto|].
  by intros (s & [= ->] & [= ->]).
Qed.



(** A country picked in the select box: when it is a name, the summary
    counts at least one notice, every notice it counts is of that
    country, and none of that country is left out.  When it is the
    missing value, which the box offers if a shown notice has no
    country, the comparison of line 209 holds for no row and the
    summary counts zero notices. *)
Theorem country_summary_counts
    (fdf cd : DataFrame) (offered : list cell) (selected_country : cell) :
  available_countries fdf = inr offered →
  selected_country ∈ offered →
  country_data fdf selected_country = inr cd →
  ∃ j, loc fdf "국가" = inr j ∧
    match selected_country with
    | Some name =>
        0 < len cd ∧
        ∀ r, r ∈ rows cd ↔ r ∈ rows fdf ∧ value_at j r = Some name
    | None => len cd = 0
    end.
Proof.
  intros (j & Hj & ->)%unique_values_inv Hsel.
  rewrite (country_data_inv _ j) by done. intros [= <-].
  exists j. split; [done|].
  apply elem_of_uniq_cells, list_elem_of_fmap in Hsel as (r0 & Hsel & Hr0).
  unfold len. cbn [select rows].
  destruct selected_country as [name|].
  - assert (∀ r, r ∈ List.filter (λ r, eq_cell (value_at j r) (Some name))
                      (rows fdf)
                 ↔ r ∈ rows fdf ∧ value_at j r = Some name) as Hmem.
    { intros r. rewrite elem_of_list_filter, eq_cell_true.
      split; [intros (? & s & ? & [= ->]); auto|intros [? ?]; eauto]. }
    split; [|done].
    assert (r0 ∈ List.filter (λ r, eq_cell (value_at j r) (Some name))
                   (rows fdf)) as Hin by (by apply Hmem).
    destruct (List.filter _ (rows fdf)); [by apply elem_of_nil in Hin|simpl; lia].
  - destruct (List.filter _ (rows fdf)) as [|r l] eqn:Hf; [done|].
    assert (r ∈ List.filter (λ r, eq_cell (value_at j r) None) (rows fdf))
      as Hr by (rewrite Hf; apply list_elem_of_here).
    apply elem_of_list_filter in Hr as [_ (s & _ & [=])%eq_cell_true].
Qed.

Lemma country_summary_counts_witness :
  let df := frame (fetch_food_data origin_unknown_api "key"
                     sample_start sample_end) in
  available_countries df = inr [Some "일본"; None; Some "태국"] ∧
  ∃ cd, country_data df None = inr cd ∧ len cd = 0.
Proof.
  intros df. split; [reflexivity|].
  destruct (country_data df None) as [|cd] eqn:Hcd; [by vm_compute in Hcd|].
  exists cd. split; [done|].
  destruct (country_summary_counts df cd [Some "일본"; None; Some "태국"] None)
    as (j & _ & Hlen); [reflexivity| |exact Hcd|exact Hlen].
  apply list_elem_of_further, list_elem_of_here.
Defined.

(** ** The grid of the first tab *)

Lemma positions_nil (label : string) (cols : list string) :
  positions label cols = [] ↔ label ∉ cols.
Proof.
  split.
  - intros Hnil (i & Hi)%list_elem_of_lookup.
    apply elem_of_positions in Hi. rewrite Hnil in Hi. by apply elem_of_nil in Hi.
  - intros Hnot. destruct (positions label cols) as [|i ps] eqn:Hps; [done|].
    destruct Hnot. apply list_elem_of_lookup. exists i.
    apply elem_of_positions. rewrite Hps. apply list_elem_of_here.
Qed.

Lemma label_positions_raises (labels cols : list string) (l : string) :
  l ∈ labels → l ∉ cols →
  ∃ l', l' ∈ labels ∧ (l' ∉ cols) ∧
        label_positions labels cols = inl (KeyError l').
Proof.
  induction labels as [|a labels IH]; intros Hl Hnot.
  { by apply elem_of_nil in Hl. }
  simpl. destruct (positions a cols) as [|i ps] eqn:Hps.
  { exists a. split_and!; [apply list_elem_of_here|by apply positions_nil|done]. }
  apply elem_of_cons in Hl as [->|Hl].
  { apply positions_nil in Hnot. congruence. }
  destruct (IH Hl Hnot) as (l' & Hl' & Hnot' & ->).
  exists l'. split_and!; [by apply list_elem_of_further|done|done].
Qed.

Lemma label_positions_inv (labels cols : list string) (ps : list (string * nat)) :
  label_positions labels cols = inr ps →
  labels ⊆ cols ∧
  Forall (λ p, p.1 ∈ labels ∧ cols !! p.2 = Some p.1) ps ∧
  (NoDup cols → ps.*1 = labels).
Proof.
  revert ps. induction labels as [|a labels IH]; intros ps; simpl.
  { intros [= <-]. split_and!; [by intros ? ?%elem_of_nil|constructor|done]. }
  destruct (positions a cols) as [|i qs] eqn:Hqs; [done|].
  destruct (label_positions labels cols) as [|rest]; [done|].
  intros [= <-]. destruct (IH rest eq_refl) as (Hsub & Hall & Hnd).
  assert (a ∈ cols) as Ha.
  { destruct (decide (a ∈ cols)) as [|Hn]; [done|].
    apply positions_nil in Hn. congruence. }
  split_and!.
  - intros x [->|Hx]%elem_of_cons; auto.
  - change ((a, i) :: map (pair a) qs ++ rest)
      with (map (pair a) (i :: qs) ++ rest).
    apply Forall_app_2.
    + apply Forall_forall. intros p (k & -> & Hk)%list_elem_of_fmap. simpl.
      split; [apply list_elem_of_here|]. apply elem_of_positions.
      by rewrite Hqs.
    + eapply Forall_impl; [exact Hall|]. intros p [? ?].
      split; [by apply list_elem_of_further|done].
  - intros Hcols.
    pose proof (positions_from_NoDup 0 a cols Hcols) as Hlen.
    fold (positions a cols) in Hlen. rewrite Hqs in Hlen.
    destruct qs; [|simpl in Hlen; lia].
    change (a :: rest.*1 = a :: labels). by rewrite (Hnd Hcols).
Qed.

Lemma label_positions_error (labels cols : list string) (e : exn) :
  label_positions labels cols = inl e →
  ∃ l, e = KeyError l ∧ l ∈ labels ∧ (l ∉ cols).
Proof.
  induction labels as [|a labels IH]; simpl; [done|].
  destruct (positions a cols) as [|i qs] eqn:Hqs.
  { intros [= <-]. exists a.
    split_and!; [done|apply list_elem_of_here|by apply positions_nil]. }
  destruct (label_positions labels cols) as [e'|rest]; [|done].
  intros [= <-]. destruct (IH eq_refl) as (l & -> & Hl & Hnot).
  exists l. split_and!; [done|by apply list_elem_of_further|done].
Qed.

(** [st.dataframe] of line 165 gets its frame exactly when the filtered
    frame has all five columns of the grid.  The frame then has as many
    rows as the filtered one, a cell for each of its columns in every
    row, and, when no label of the filtered frame repeats, the five
    columns in the order of the grid.  When a column is wanting, the
    expression raises [KeyError] for a label that is. *)
Theorem list_view_needs_its_columns (fdf : DataFrame) :
  match list_view fdf with
  | inr view =>
      LIST_COLUMNS ⊆ columns fdf ∧
      len view = len fdf ∧ well_shaped view ∧
      (NoDup (columns fdf) → columns view = LIST_COLUMNS)
  | inl e =>
      ∃ l, e = KeyError l ∧ l ∈ LIST_COLUMNS ∧ (l ∉ columns fdf)
  end.
Proof.
  unfold list_view, getitem_columns.
  destruct (label_positions LIST_COLUMNS (columns fdf)) as [e|ps] eqn:Hps;
    cbn [bind ret].
  - by apply label_positions_error in Hps.
  - destruct (label_positions_inv _ _ _ Hps) as (Hsub & _ & Hnd).
    split_and!; [done| | |done].
    + unfold len. cbn [rows]. by rewrite length_map.
    + unfold well_shaped. cbn [rows columns]. apply Forall_forall.
      intros r (r0 & -> & _)%list_elem_of_fmap.
      by rewrite length_map, length_fmap.
Qed.

Lemma fetch_api_columns
    (remote : params → response) (API_KEY : string) (start_date end_date : date) :
  let out := fetch_food_data remote API_KEY start_date end_date in
  errors out = [] → empty (frame out) = false →
  Forall api_record (collected remote API_KEY start_date end_date) →
  columns (frame out) = NORMALIZED_COLUMNS.
Proof.
  intros out Herr Hemp Hapi. subst out.
  destruct (fetch_cases remote API_KEY start_date end_date)
    as [(_ & _ & Hf)|[(_ & Hne & Hn)|(e & He & _)]].
  - by rewrite Hf in Hemp.
  - by eapply normalize_api_columns.
  - congruence.
Qed.

Lemma loc_of_columns (df : DataFrame) (cols : list string) (label : string)
    (i : nat) :
  columns df = cols → positions label cols = [i] → loc df label = inr i.
Proof. intros <- H. by apply loc_positions. Qed.

(** After a fetch without an exception that found notices carrying the
    six fields of the API, nothing the page does with the frame raises:
    the options of both filters, the filter under any selection, the
    grid with its five columns in order, the groups of the map, the
    countries of the select box and the rows of any country. *)
Theorem page_runs_after_clean_fetch
    (remote : params → response) (API_KEY : string) (start_date end_date : date)
    (filter_type filter_country : list cell) (selected_country : cell) :
  let out := fetch_food_data remote API_KEY start_date end_date in
  errors out = [] → empty (frame out) = false →
  Forall api_record (collected remote API_KEY start_date end_date) →
  ∃ types countries fdf groups offered shown,
    unique_values (frame out) "구분" = inr types ∧
    unique_values (frame out) "국가" = inr countries ∧
    filtered_df (frame out) filter_type filter_country = inr fdf ∧
    list_view fdf =
      inr (mkFrame LIST_COLUMNS
             (map (λ r, [value_at 4 r; value_at 2 r; value_at 1 r;
                         value_at 0 r; value_at 3 r]) (rows fdf))) ∧
    map_data fdf = inr groups ∧
    available_countries fdf = inr offered ∧
    drill_down fdf selected_country = inr shown.
Proof.
  intros out Herr Hemp Hapi.
  pose proof (fetch_api_columns remote API_KEY start_date end_date
                Herr Hemp Hapi) as Hcols.
  fold out in Hcols. clearbody out.
  assert (∀ df label i, columns df = NORMALIZED_COLUMNS →
            positions label NORMALIZED_COLUMNS = [i] → loc df label = inr i)
    as Hloc by (intros; by eapply loc_of_columns).
  unfold unique_values, get_column, filtered_df.
  rewrite (Hloc (frame out) "구분" 2), (Hloc (frame out) "국가" 1) by done.
  cbn [bind ret]. do 2 eexists.
  set (fdf := select (λ r, isin filter_type (value_at 2 r)
                           && isin filter_country (value_at 1 r)) (frame out)).
  exists fdf.
  assert (columns fdf = NORMALIZED_COLUMNS) as Hfcols by done.
  clearbody fdf.
  unfold map_data, groupby_size, available_countries, unique_values,
    get_column, drill_down, country_data, list_view, getitem_columns.
  cbn [locs].
  rewrite (Hloc fdf "구분" 2), (Hloc fdf "국가" 1), (Hloc fdf "Country_EN" 6)
    by done.
  rewrite Hfcols. cbn [bind ret].
  do 3 eexists. split_and!; reflexivity.
Qed.

Lemma page_runs_after_clean_fetch_witness :
  let out := fetch_food_data origin_unknown_api "key" sample_start sample_end in
  ∃ fdf, filtered_df (frame out) [Some "회수"] [Some "일본"] = inr fdf ∧
         list_view fdf =
           inr (mkFrame LIST_COLUMNS
                  [[Some "20241218"; Some "회수"; Some "일본"; Some "soy sauce";
                    Some "3-MCPD"]]).
Proof.
  intros out.
  destruct (page_runs_after_clean_fetch origin_unknown_api "key"
              sample_start sample_end [Some "회수"] [Some "일본"] None)
    as (types & countries & fdf & groups & offered & shown
        & _ & _ & Hf & Hview & _).
  - reflexivity.
  - reflexivity.
  - by repeat constructor.
  - exists fdf. split; [exact Hf|]. rewrite Hview.
    vm_compute in Hf. injection Hf as <-. reflexivity.
Defined.

Lemma normalize_without_content (data : list item) (df : DataFrame) :
  (∀ it, it ∈ data → ("CONTENT" ∉ it.*1) ∧ ("상세내용" ∉ it.*1)) →
  normalize data = inr df → "상세내용" ∉ columns df.
Proof.
  intros Hkeys Hn (i & Hi)%list_elem_of_lookup.
  destruct (normalize_rows _ _ Hn)
    as (id & ik & je & g & _ & _ & _ & _ & _ & Hcols & _).
  apply Hcols in Hi; [|done].
  cbn [rename columns] in Hi. change (map ?f ?l) with (f <$> l) in Hi.
  apply list_lookup_fmap_Some in Hi as (c & Hc & Hin%list_elem_of_lookup_2).
  apply elem_of_from_records_columns in Hin as (it & Hit & Hcit).
  destruct (Hkeys it Hit) as [Hraw Hnew].
  symmetry in Hc. apply rename_target_source in Hc as [[-> _]|Hc]; [done|].
  apply RENAME_COLUMNS_pairs in Hc.
  rewrite !elem_of_cons, elem_of_nil in Hc.
  repeat (destruct Hc as [Hc|Hc]; [(by injection Hc as ->) || discriminate|]).
  done.
Qed.

(** Line 103 lets a frame without a detail column pass, but the grid
    of line 165 asks for that column: when no notice gathered has a
    field [CONTENT], a fetch that reported nothing is followed by a
    [KeyError] in the first tab, whatever is selected. *)
Theorem grid_needs_content
    (remote : params → response) (API_KEY : string) (start_date end_date : date)
    (filter_type filter_country : list cell) (fdf : DataFrame) :
  let out := fetch_food_data remote API_KEY start_date end_date in
  errors out = [] → empty (frame out) = false →
  (∀ it, it ∈ collected remote API_KEY start_date end_date →
         ("CONTENT" ∉ it.*1) ∧ ("상세내용" ∉ it.*1)) →
  filtered_df (frame out) filter_type filter_country = inr fdf →
  ∃ l, list_view fdf = inl (KeyError l) ∧ (l ∉ columns (frame out)).
Proof.
  intros out Herr Hemp Hkeys (i & j & _ & _ & ->)%filtered_df_inv.
  assert ("상세내용" ∉ columns (frame out)) as Hnot.
  { unfold out in *.
    destruct (fetch_cases remote API_KEY start_date end_date)
      as [(_ & _ & Hf)|[(_ & _ & Hn)|(e & He & _)]].
    - by rewrite Hf in Hemp.
    - by eapply normalize_without_content.
    - congruence. }
  unfold list_view, getitem_columns. cbn [select columns].
  destruct (label_positions_raises LIST_COLUMNS (columns (frame out)) "상세내용")
    as (l & _ & Hl & ->); [|done|by exists l].
  unfold LIST_COLUMNS. rewrite !elem_of_cons. tauto.
Qed.

Lemma grid_needs_content_witness :
  let remote := λ p : params,
    match startIndex p with
    | 1 => Json (Some [[("TITLE", Some "dried mango"); ("COUNTRY", Some "태국");
                        ("INFO_TYPE", Some "회수");
                        ("REGISTRATION_DATE", Some "20241105")]])
    | _ => Json None
    end in
  let out := fetch_food_data remote "key" sample_start sample_end in
  errors out = [] ∧
  filtered_df (frame out) [Some "회수"] [Some "태국"] = inr (frame out) ∧
  list_view (frame out) = inl (KeyError "상세내용").
Proof.
  intros remote out.
  destruct (grid_needs_content remote "key" sample_start sample_end
              [Some "회수"] [Some "태국"] (frame out))
    as (l & Hl & _).
  - reflexivity.
  - reflexivity.
  - intros it Hit. vm_compute in Hit.
    apply elem_of_cons in Hit as [->|Hit]; [|by apply elem_of_nil in Hit].
    split; intros Hin; simpl in Hin;
      rewrite !elem_of_cons, elem_of_nil in Hin;
      repeat (destruct Hin as [Hin|Hin]; [discriminate|]); done.
  - reflexivity.
  - split_and!; [reflexivity..|].
    rewrite Hl. vm_compute in Hl. by rewrite Hl.
Defined.

(** ** The groups of the map *)

Lemma string_compare_refl (x : string) : String.compare x x = Eq.
Proof.
  induction x as [|a x IH]; simpl; [done|].
  unfold Ascii.compare. by rewrite N.compare_refl.
Qed.

Lemma string_compare_eq (x y : string) : String.compare x y = Eq ↔ x = y.
Proof.
  split; [apply String.compare_eq_iff|intros ->; apply string_compare_refl].
Qed.

Lemma string_compare_lt_trans (x y z : string) :
  String.compare x y = Lt → String.compare y z = Lt → String.compare x z = Lt.
Proof.
  revert y z.
  induction x as [|a x IH]; intros [|b y] [|c z]; simpl; try done.
  unfold Ascii.compare. intros Hxy Hyz.
  destruct (N.compare_spec (N_of_ascii a) (N_of_ascii b)) as [Hab|Hab|Hab];
    [|clear Hxy|done];
    (destruct (N.compare_spec (N_of_ascii b) (N_of_ascii c)) as [Hbc|Hbc|Hbc];
     [|clear Hyz|done]).
  - rewrite Hab, Hbc, N.compare_refl. eauto.
  - rewrite Hab. by apply N.compare_lt_iff in Hbc as ->.
  - rewrite <- Hbc. by apply N.compare_lt_iff in Hab as ->.
  - assert (N_of_ascii a < N_of_ascii c)%N as Hac by lia.
    by apply N.compare_lt_iff in Hac as ->.
Qed.

Lemma key_compare_eq (k1 k2 : list string) : key_compare k1 k2 = Eq ↔ k1 = k2.
Proof.
  revert k2. induction k1 as [|a k1 IH]; intros [|b k2]; simpl; try done.
  destruct (String.compare a b) eqn:Hab.
  - apply string_compare_eq in Hab as ->. rewrite IH.
    split; [by intros ->|by intros [= ->]].
  - split; [done|]. intros [= -> _]. by rewrite string_compare_refl in Hab.
  - split; [done|]. intros [= -> _]. by rewrite string_compare_refl in Hab.
Qed.

Lemma key_compare_antisym (k1 k2 : list string) :
  key_compare k1 k2 = CompOpp (key_compare k2 k1).
Proof.
  revert k2. induction k1 as [|a k1 IH]; intros [|b k2]; simpl; try done.
  rewrite (String.compare_antisym a b).
  destruct (String.compare b a); simpl; auto.
Qed.

Lemma key_compare_lt_trans (k1 k2 k3 : list string) :
  key_compare k1 k2 = Lt → key_compare k2 k3 = Lt → key_compare k1 k3 = Lt.
Proof.
  revert k2 k3.
  induction k1 as [|a k1 IH]; intros [|b k2] [|c k3]; simpl; try done.
  destruct (String.compare a b) eqn:Hab; [| |done];
    (destruct (String.compare b c) eqn:Hbc; [| |done]).
  - apply string_compare_eq in Hab as ->. rewrite Hbc. apply IH.
  - apply string_compare_eq in Hab as ->. by rewrite Hbc.
  - apply string_compare_eq in Hbc as ->. by rewrite Hab.
  - by rewrite (string_compare_lt_trans a b c).
Qed.

Lemma group_count_absent (k : list string) (groups : list (list string * nat)) :
  Forall (λ g, key_compare k g.1 = Lt) groups → group_count k groups = 0.
Proof.
  induction 1 as [|[k' n] groups Hlt _ IH]; simpl; [done|].
  destruct (decide (k' = k)) as [->|]; [|done].
  simpl in Hlt. by rewrite (proj2 (key_compare_eq k k)) in Hlt.
Qed.

Lemma count_into_keys (k : list string) (groups : list (list string * nat))
    (P : list string → Prop) :
  P k → Forall (λ g, P g.1) groups → Forall (λ g, P g.1) (count_into k groups).
Proof.
  intros Hk. induction 1 as [|[k' n] groups Hg Hall IH]; simpl.
  { by repeat constructor. }
  destruct (key_compare k k'); by repeat constructor.
Qed.

Lemma count_into_ascending (k : list string) (groups : list (list string * nat)) :
  ascending_keys groups → ascending_keys (count_into k groups).
Proof.
  unfold ascending_keys.
  induction 1 as [|[k' n] groups Hs IH Hall]; simpl.
  { by repeat constructor. }
  destruct (key_compare k k') eqn:Hk.
  - by constructor.
  - constructor; [by constructor|]. constructor; [done|].
    eapply Forall_impl; [exact Hall|]. intros g Hg. simpl in *.
    by eapply key_compare_lt_trans.
  - constructor; [done|].
    apply (count_into_keys k groups (λ x, key_compare k' x = Lt)); [|done].
    rewrite key_compare_antisym, Hk. done.
Qed.

Lemma count_into_count (k k' : list string) (groups : list (list string * nat)) :
  ascending_keys groups →
  group_count k' (count_into k groups) =
  if decide (k = k') then S (group_count k' groups) else group_count k' groups.
Proof.
  unfold ascending_keys.
  induction 1 as [|[k0 n] groups Hs IH Hall]; simpl.
  { destruct (decide (k = k')); done. }
  destruct (key_compare k k0) eqn:Hk; simpl.
  - apply key_compare_eq in Hk as ->.
    destruct (decide (k0 = k')); done.
  - destruct (decide (k = k')) as [->|]; [|done].
    destruct (decide (k0 = k')) as [->|].
    { by rewrite (proj2 (key_compare_eq k' k')) in Hk. }
    rewrite group_count_absent; [done|].
    eapply Forall_impl; [exact Hall|]. intros g Hg. simpl in *.
    by eapply key_compare_lt_trans.
  - destruct (decide (k0 = k')) as [->|]; [|done].
    destruct (decide (k = k')) as [->|]; [|done].
    by rewrite (proj2 (key_compare_eq k' k')) in Hk.
Qed.

Lemma count_into_positive (k : list string) (groups : list (list string * nat)) :
  Forall (λ g, 0 < g.2) groups → Forall (λ g, 0 < g.2) (count_into k groups).
Proof.
  induction 1 as [|[k' n] groups Hg Hall IH]; simpl.
  { repeat constructor. }
  simpl in Hg.
  destruct (key_compare k k'); repeat constructor; simpl; try done; lia.
Qed.

Lemma count_into_sum (k : list string) (groups : list (list string * nat)) :
  list_sum (count_into k groups).*2 = S (list_sum groups.*2).
Proof.
  induction groups as [|[k' n] groups IH]; [done|].
  cbn [count_into]. destruct (key_compare k k');
    rewrite ?fmap_cons; change (list_sum (?x :: ?l)) with (x + list_sum l);
    rewrite ?fmap_cons; change (list_sum (?x :: ?l)) with (x + list_sum l);
    rewrite ?IH; simpl; lia.
Qed.

Lemma group_count_elem (k : list string) (n : nat)
    (groups : list (list string * nat)) :
  ascending_keys groups → Forall (λ g, 0 < g.2) groups →
  (k, n) ∈ groups ↔ 0 < n ∧ group_count k groups = n.
Proof.
  unfold ascending_keys.
  induction 1 as [|[k0 m] groups Hs IH Hall]; intros Hpos; simpl.
  { rewrite elem_of_nil. split; [done|lia]. }
  apply Forall_cons in Hpos as [Hm Hpos]. simpl in Hm.
  rewrite elem_of_cons, (IH Hpos).
  destruct (decide (k0 = k)) as [->|Hne].
  - rewrite group_count_absent by done.
    split; [intros [[= ->]|[? ?]]; [done|lia]|intros [? ->]; auto].
  - split; [intros [[= ? ?]|?]; [congruence|done]|auto].
Qed.

Section GroupBy.

Variable key : row → option (list string).

Lemma fold_count_spec (l : list row) :
  let groups := foldr (λ r groups, match key r with
                                   | None => groups
                                   | Some k => count_into k groups
                                   end) [] l in
  ascending_keys groups ∧ Forall (λ g, 0 < g.2) groups ∧
  (∀ k, group_count k groups =
        length (List.filter (λ r, bool_decide (key r = Some k)) l)) ∧
  list_sum groups.*2 =
    length (List.filter (λ r, bool_decide (is_Some (key r))) l).
Proof.
  induction l as [|r l (Hs & Hpos & Hcount & Hsum)]; cbn zeta.
  { split_and!; [constructor|constructor|done|done]. }
  cbn [foldr List.filter]. destruct (key r) as [k|] eqn:Hk.
  - split_and!.
    + by apply count_into_ascending.
    + by apply count_into_positive.
    + intros k'. rewrite count_into_count, Hcount by done.
      destruct (decide (k = k')) as [->|Hne].
      * by rewrite bool_decide_true.
      * rewrite bool_decide_false; [done|congruence].
    + rewrite count_into_sum, Hsum. by rewrite bool_decide_true.
  - split_and!; [done|done| |].
    + intros k'. rewrite Hcount. by rewrite bool_decide_false.
    + rewrite Hsum. rewrite bool_decide_false; [done|]. by intros [? ?].
Qed.

End GroupBy.

Lemma map_data_inv (fdf : DataFrame) (groups : list (list string * nat)) :
  map_data fdf = inr groups →
  ∃ e c t, loc fdf "Country_EN" = inr e ∧ loc fdf "국가" = inr c ∧
           loc fdf "구분" = inr t ∧
           groups = foldr (λ r groups, match map_key e c t r with
                                       | None => groups
                                       | Some k => count_into k groups
                                       end) [] (rows fdf).
Proof.
  unfold map_data, groupby_size. cbn [locs].
  destruct (loc fdf "Country_EN") as [|e]; [done|].
  destruct (loc fdf "국가") as [|c]; [done|].
  destruct (loc fdf "구분") as [|t]; [done|].
  cbn [bind ret]. intros [= <-]. by exists e, c, t.
Qed.

(** The frame behind the map of line 175 has one entry for each
    combination of English name, country and type that occurs in the
    filtered frame, in ascending order of the combinations; its count
    is the number of rows with that combination.  Rows in which one of
    the three cells is missing are counted nowhere, so the counts add up
    to the number of the other rows. *)
Theorem map_data_counts (fdf : DataFrame) (groups : list (list string * nat)) :
  map_data fdf = inr groups →
  ∃ e c t,
    loc fdf "Country_EN" = inr e ∧ loc fdf "국가" = inr c ∧
    loc fdf "구분" = inr t ∧
    ascending_keys groups ∧
    (∀ k n, (k, n) ∈ groups ↔
       0 < n ∧
       length (List.filter (λ r, bool_decide (map_key e c t r = Some k))
                           (rows fdf)) = n) ∧
    list_sum groups.*2 =
      length (List.filter (λ r, bool_decide (is_Some (map_key e c t r)))
                          (rows fdf)).
Proof.
  intros (e & c & t & He & Hc & Ht & ->)%map_data_inv.
  exists e, c, t.
  destruct (fold_count_spec (map_key e c t) (rows fdf))
    as (Hs & Hpos & Hcount & Hsum).
  split_and!; try done.
  intros k n. rewrite group_count_elem by done. by rewrite Hcount.
Qed.

Lemma map_data_counts_witness :
  let df := frame (fetch_food_data origin_unknown_api "key"
                     sample_start sample_end) in
  map_data df = inr [(["Japan"; "일본"; "회수"], 1);
                     (["Thailand"; "태국"; "회수"], 1)] ∧
  len df = 3 ∧
  length (List.filter (λ r, bool_decide (is_Some (map_key 6 1 2 r))) (rows df))
    = 2.
Proof.
  intros df.
  destruct (map_data_counts df [(["Japan"; "일본"; "회수"], 1);
                                (["Thailand"; "태국"; "회수"], 1)])
    as (e & c & t & He & Hc & Ht & _ & _ & Hsum); [reflexivity|].
  vm_compute in He, Hc, Ht.
  injection He as <-. injection Hc as <-. injection Ht as <-.
  split_and!; [reflexivity|reflexivity|]. by rewrite <- Hsum.
Defined.

Lemma group_key_three (a b c : cell) (k : list string) :
  group_key [a; b; c] = Some k ↔
  ∃ x y z, a = Some x ∧ b = Some y ∧ c = Some z ∧ k = [x; y; z].
Proof.
  destruct a as [x|], b as [y|], c as [z|]; simpl;
    try (split; [done|by intros (? & ? & ? & ? & ? & ? & ?)]).
  split.
  - intros [= <-]. by exists x, y, z.
  - by intros (? & ? & ? & [= <-] & [= <-] & [= <-] & ->).
Qed.

Lemma filter_ext_elem (p q : row → bool) (l : list row) :
  (∀ r, r ∈ l → p r = q r) → List.filter p l = List.filter q l.
Proof.
  induction l as [|r l IH]; intros Hpq; simpl; [done|].
  rewrite (Hpq r) by apply list_elem_of_here.
  rewrite IH; [done|]. intros r' Hr'. by apply Hpq, list_elem_of_further.
Qed.

Lemma filter_nonempty (p : row → bool) (l : list row) :
  0 < length (List.filter p l) → ∃ r, r ∈ l ∧ p r = true.
Proof.
  destruct (List.filter p l) as [|r l'] eqn:Hf; simpl; [lia|]. intros _.
  exists r. apply elem_of_list_filter. rewrite Hf. apply list_elem_of_here.
Qed.

(** The map after a fetch without an exception.  Every point stands
    for a country and a type that are selected in the first tab, and it
    is located by the English name of the table, or, for a country the
    table lacks, by the country's own name as the API gave it.  The
    points together count the shown notices that have both a country
    and a type; the others are not on the map. *)
Theorem map_points_after_fetch
    (remote : params → response) (API_KEY : string) (start_date end_date : date)
    (filter_type filter_country : list cell) (fdf : DataFrame)
    (groups : list (list string * nat)) :
  let out := fetch_food_data remote API_KEY start_date end_date in
  errors out = [] →
  filtered_df (frame out) filter_type filter_country = inr fdf →
  map_data fdf = inr groups →
  (∀ k n, (k, n) ∈ groups →
     ∃ country type,
       k = [default country (COUNTRY_MAPPING !! country); country; type] ∧
       Some country ∈ filter_country ∧ Some type ∈ filter_type) ∧
  ∃ c t, loc fdf "국가" = inr c ∧ loc fdf "구분" = inr t ∧
    list_sum groups.*2 =
      length (List.filter
                (λ r, bool_decide (is_Some (value_at c r) ∧
                                   is_Some (value_at t r)))
                (rows fdf)).
Proof.
  intros out Herr Hf (e & c & t & He & Hc & Ht & ->)%map_data_inv.
  apply filtered_df_inv in Hf as (i & j & Hi & Hj & ->).
  rewrite (loc_columns (frame out)) in He, Hc, Ht by done.
  assert (i = t) as -> by congruence. assert (j = c) as -> by congruence.
  assert (∀ r, r ∈ rows (frame out) →
            value_at e r = country_en (value_at c r)) as Hen.
  { intros r Hr.
    pose proof (fetch_normalized remote API_KEY start_date end_date r
                  Herr Hr) as Hn.
    destruct (normalize_country _ _ _ Hn Hr) as (ik & je & Hik & Hje & Hval).
    fold out in Hik, Hje.
    assert (ik = c) as -> by congruence. assert (je = e) as -> by congruence.
    done. }
  cbn [select rows columns].
  set (shown := List.filter _ (rows (frame out))).
  destruct (fold_count_spec (map_key e c t) shown)
    as (Hs & Hpos & Hcount & Hsum).
  split.
  - intros k n [Hn Hk]%group_count_elem; [|done..].
    rewrite Hcount in Hk. rewrite <- Hk in Hn.
    apply filter_nonempty in Hn as (r & Hr & Hkey).
    apply bool_decide_eq_true in Hkey.
    apply group_key_three in Hkey as (x & y & z & Hx & Hy & Hz & ->).
    apply elem_of_list_filter in Hr as [Hr [H1 H2]%andb_true_iff].
    apply isin_true in H1, H2. rewrite Hz in H1. rewrite Hy in H2.
    exists y, z. split_and!; [|done|done].
    rewrite (Hen r Hr), Hy in Hx. unfold country_en, map_dict, fillna in Hx.
    destruct (COUNTRY_MAPPING !! y); simpl; congruence.
  - exists c, t. split_and!; [done|done|].
    rewrite Hsum. f_equal. apply filter_ext_elem.
    intros r [Hr _]%elem_of_list_filter.
    apply bool_decide_ext. unfold map_key. rewrite (Hen r Hr).
    unfold country_en, map_dict, fillna.
    destruct (value_at c r) as [y|]; [destruct (COUNTRY_MAPPING !! y)|];
      destruct (value_at t r) as [z|]; cbn [group_key];
      (split; [intros [? ?]|intros [[? ?] [? ?]]]); try done; eauto.
Qed.

Lemma map_points_after_fetch_witness :
  let out := fetch_food_data mixed_notices "key" sample_start sample_end in
  let groups := [(["Atlantis"; "Atlantis"; "정보"], 1);
                 (["Japan"; "일본"; "회수"], 1);
                 (["Thailand"; "태국"; "회수"], 1)] in
  map_data (frame out) = inr groups ∧
  ∃ country type,
    ["Atlantis"; "Atlantis"; "정보"]
      = [default country (COUNTRY_MAPPING !! country); country; type].
Proof.
  intros out groups.
  destruct (map_points_after_fetch mixed_notices "key" sample_start sample_end
              [Some "회수"; Some "정보"]
              [Some "일본"; Some "Atlantis"; Some "태국"]
              (frame out) groups) as [Hall _]; [by vm_compute..|].
  split; [by vm_compute|].
  destruct (Hall ["Atlantis"; "Atlantis"; "정보"] 1)
    as (country & type & Hk & _); [apply list_elem_of_here|].
  by exists country, type.
Defined.
